(** * PDF-Web-Assistant: a shallow embedding of the retrieval-augmented
      query orchestrator and the properties of its specification.

    The development follows the source files one by one:
    [pdf_retrieval.py], [tavily_tool.py], [history.py],
    [document_storage.py], [agent.py] and [app.py].

    Modelling conventions.
    - Python [str] values are [string]s over ASCII; [str.strip],
      [str.lower] and [str.capitalize] are written out on that alphabet.
    - The scores of the index are numbers of a floating-point type that
      the index library fixes. Their type, the arithmetic and the
      comparisons Python applies to them are capabilities, so that
      nothing depends on a format or on rounding; the sample worlds use
      binary64, the format of a Python [float].
    - A call that may raise returns a [Result]; [try ... except] is a
      [match] on it.
    - The embedding model, the language model, the nearest-neighbour
      query, the web-search client, the PDF loader, the file system and
      the hash function are external capabilities, gathered in the class
      [Capabilities].
    - The MongoDB database is a record of three collections held in
      insertion order, with a flag per collection telling whether
      operations on it raise. *)

From Stdlib Require Import List String Ascii Bool Arith Lia QArith Sorted.
From Stdlib Require Import Permutation Qround.
From Corelib Require Import PrimFloat.
From Stdlib Require Import DecimalString.
From Stdlib.Strings Require Import Byte.
Import ListNotations.
Close Scope Q_scope.
Open Scope string_scope.
Open Scope nat_scope.

(* ================================================================= *)
(** ** Exceptions *)

Inductive Result (A : Type) : Type :=
| Ok (a : A)
| Raise (msg : string).
Arguments Ok {A} a.
Arguments Raise {A} msg.

Definition bind {A B : Type} (r : Result A) (k : A -> Result B) : Result B :=
  match r with
  | Ok a => k a
  | Raise msg => Raise msg
  end.

Notation "x <- c ;; k" := (bind c (fun x => k))
  (at level 61, c at next level, right associativity).

(* ================================================================= *)
(** ** Python string operations *)

Definition nl : string := String (ascii_of_nat 10) EmptyString.
Definition dquote : string := String (ascii_of_nat 34) EmptyString.

(** [bool(s)] for a string: true when non-empty. *)
Definition truthy (s : string) : bool :=
  match s with
  | EmptyString => false
  | String _ _ => true
  end.

(** [str.isspace] on one ASCII character. *)
Definition is_space (c : ascii) : bool :=
  let n := nat_of_ascii c in
  ((9 <=? n) && (n <=? 13)) || ((28 <=? n) && (n <=? 32)).

Fixpoint lstrip (s : string) : string :=
  match s with
  | EmptyString => EmptyString
  | String c r => if is_space c then lstrip r else s
  end.

Fixpoint rstrip (s : string) : string :=
  match s with
  | EmptyString => EmptyString
  | String c r =>
      match rstrip r with
      | EmptyString => if is_space c then EmptyString else String c EmptyString
      | r' => String c r'
      end
  end.

Definition strip (s : string) : string := rstrip (lstrip s).

Definition lower_char (c : ascii) : ascii :=
  let n := nat_of_ascii c in
  if (65 <=? n) && (n <=? 90) then ascii_of_nat (n + 32) else c.

Definition upper_char (c : ascii) : ascii :=
  let n := nat_of_ascii c in
  if (97 <=? n) && (n <=? 122) then ascii_of_nat (n - 32) else c.

Fixpoint lower (s : string) : string :=
  match s with
  | EmptyString => EmptyString
  | String c r => String (lower_char c) (lower r)
  end.

Definition capitalize (s : string) : string :=
  match s with
  | EmptyString => EmptyString
  | String c r => String (upper_char c) (lower r)
  end.

(** [s.startswith(p)]. *)
Definition startswith (s p : string) : bool := String.prefix p s.

(** [k in s] for strings. *)
Fixpoint contains (k s : string) : bool :=
  String.prefix k s ||
  match s with
  | EmptyString => false
  | String _ r => contains k r
  end.

(** [sep.join(l)]. *)
Definition join (sep : string) (l : list string) : string := String.concat sep l.

(** [s[:n]]. *)
Definition take (n : nat) (s : string) : string := String.substring 0 n s.

(** [str(i)] for a non-negative integer. *)
Definition str_of_nat (n : nat) : string := NilEmpty.string_of_uint (Nat.to_uint n).

(** [s1 in [...]] for a list of strings. *)
Definition in_list (s : string) (l : list string) : bool :=
  existsb (String.eqb s) l.

(* ================================================================= *)
(** ** Shared data *)

(** A LangChain [Document]; only [page_content] is read by this code. *)
Record Document : Type := mkDocument { page_content : string }.

Definition Embedding : Type := list Q.

(** The FAISS index: the chunks with their embeddings, in insertion order. *)
Definition VectorStore : Type := list (Document * Embedding).

(** One hit of the web-search client: a dict whose keys may be absent. *)
Record WebResult : Type := mkWebResult {
  url : option string;
  content : option string
}.

(** What [tavily_tool.invoke] hands back: a list of hits or some other
    object. *)
Inductive TavilyOutput : Type :=
| TavilyList (results : list WebResult)
| TavilyOther.

Record TavilySearch : Type := mkTavilySearch {
  max_results : nat;
  search_depth : string
}.

(** The external collaborators. The first fields are the floating-point
    type of the scores with what line 27 and line 30 of
    [pdf_retrieval.py] apply to it: the integer [1] converted, the
    literal [0.4], addition, division (which may raise), [>] and [==];
    the two comparisons exclude one another, as in every IEEE format. *)
Class Capabilities : Type := {
  score : Type;
  score_one : score;
  score_threshold : score;
  score_add : score -> score -> score;
  score_div : score -> score -> Result score;
  score_gt : score -> score -> bool;
  score_eq : score -> score -> bool;
  score_gt_not_eq : forall a b, score_gt a b = true -> score_eq a b = false;
  similarity_search_with_score :
    VectorStore -> string -> nat -> Result (list (Document * score));
  embed_documents : list Document -> Result (list Embedding);
  llm_invoke : string -> string -> Result string;
  tavily_invoke : TavilySearch -> string -> Result TavilyOutput;
  pdf_load : string -> Result (list Document);
  split_documents : nat -> nat -> list Document -> Result (list Document);
  read_bytes : string -> Result (list byte);
  getsize : string -> Result nat;
  sha256_hexdigest : list byte -> string
}.

(* ================================================================= *)
(** ** pdf_retrieval.py *)

Definition Qgtb (a b : Q) : bool := negb (Qle_bool a b).

Definition NO_RELEVANT_CONTENT : string := "NO_RELEVANT_CONTENT".

Section Retrieval.
Context `{Capabilities}.

(** [1 / (1 + score)]. *)
Definition similarity (d : score) : Result score :=
  score_div score_one (score_add score_one d).

(** The list comprehension of line 30. *)
Fixpoint relevant_content (results : list (Document * score)) : Result (list string) :=
  match results with
  | [] => Ok []
  | (doc, d) :: rest =>
      s <- similarity d ;;
      let keep := score_gt s score_threshold && truthy (strip (page_content doc)) in
      tl <- relevant_content rest ;;
      Ok (if keep then strip (page_content doc) :: tl else tl)
  end.

Definition pdf_retrieval_body (query : string) (vs : VectorStore) : Result string :=
  results <- similarity_search_with_score vs query 3 ;;
  match results with
  | [] => Ok NO_RELEVANT_CONTENT
  | (best_doc, best_score) :: _ =>
      best_similarity <- similarity best_score ;;
      rc <- relevant_content results ;;
      match rc with
      | [] => Ok NO_RELEVANT_CONTENT
      | _ :: _ => Ok ("PDF Content: " ++ join (nl ++ nl) (firstn 2 rc))
      end
  end.

Definition pdf_retrieval_tool (query : string) (vector_store : option VectorStore)
  : string :=
  match vector_store with
  | None => "Error: No PDF documents uploaded yet."
  | Some vs =>
      match pdf_retrieval_body query vs with
      | Ok s => s
      | Raise e => "Error: Failed to process PDF retrieval - " ++ e
      end
  end.

(** The condition of the comprehension on one hit; a hit on which the
    division raises is not kept (the whole comprehension raises). *)
Definition retained (p : Document * score) : bool :=
  match similarity (snd p) with
  | Ok s => score_gt s score_threshold && truthy (strip (page_content (fst p)))
  | Raise _ => false
  end.

Definition chunk_text (p : Document * score) : string := strip (page_content (fst p)).

(** The division of line 30 does not raise on this hit. *)
Definition divisor_nonzero (p : Document * score) : Prop :=
  exists s, similarity (snd p) = Ok s.
End Retrieval.

(* ================================================================= *)
(** ** tavily_tool.py *)

Definition tavily_tool : TavilySearch :=
  {| max_results := 5; search_depth := "advanced" |}.

(** [d.get(key, default)] on a key that may be absent. *)
Definition get_default (o : option string) (default : string) : string :=
  match o with
  | Some s => s
  | None => default
  end.

(** [enumerate(l, start)]. *)
Fixpoint enumerate {A : Type} (start : nat) (l : list A) : list (nat * A) :=
  match l with
  | [] => []
  | x :: r => (start, x) :: enumerate (S start) r
  end.

Definition has_content (result : WebResult) : bool :=
  truthy (strip (get_default (content result) EmptyString)).

Definition format_part (i : nat) (result : WebResult) : string :=
  "Source " ++ str_of_nat i ++ " (" ++ get_default (url result) "No URL" ++ "): "
    ++ take 400 (get_default (content result) "No content") ++ "...".

(** The list comprehension of lines 40-41. *)
Definition content_parts (results : list WebResult) : list string :=
  map (fun ir => format_part (fst ir) (snd ir))
      (filter (fun ir => has_content (snd ir)) (enumerate 1 (firstn 3 results))).

Section WebSearch.
Context `{Capabilities}.

Definition tavily_search_tool (query : string) : string :=
  match tavily_invoke tavily_tool query with
  | Raise e => "Error: Unable to fetch web results - " ++ e
  | Ok TavilyOther => "No web results found"
  | Ok (TavilyList []) => "No web results found"
  | Ok (TavilyList results) =>
      match content_parts results with
      | [] => "No relevant web content found"
      | parts => "Web Search Results: " ++ join (nl ++ nl) parts
      end
  end.
End WebSearch.

(* ================================================================= *)
(** ** history.py *)

Inductive Collection : Type := chat_history_coll | documents_coll | sessions_coll.

Definition Metadata : Type := list (string * string).

Record SessionRecord : Type := mkSession {
  sess_session_id : string;
  sess_created_at : nat;
  sess_metadata : Metadata
}.

Record ChatTurn : Type := mkChatTurn {
  msg_session_id : string;
  msg_content : string;
  msg_role : string;
  msg_timestamp : nat;
  msg_metadata : Metadata
}.

Record DocumentRecord : Type := mkDocumentRecord {
  doc_session_id : string;
  doc_filename : string;
  doc_file_size : nat;
  doc_content_hash : string;
  doc_chunk_count : nat;
  doc_upload_timestamp : nat;
  doc_status : string
}.

(** The database [chat_db]. [unavailable c] tells that operations on
    collection [c] raise; [clock] is the next value of [datetime.utcnow]. *)
Record Database : Type := mkDatabase {
  sessions : list SessionRecord;
  chat_history : list ChatTurn;
  documents : list DocumentRecord;
  clock : nat;
  unavailable : Collection -> bool
}.

Definition get_collection (db : Database) (collection_name : Collection) : Result unit :=
  if unavailable db collection_name
  then Raise "database operation failed"
  else Ok tt.

Definition utcnow (db : Database) : nat * Database :=
  (clock db,
   mkDatabase (sessions db) (chat_history db) (documents db) (S (clock db))
              (unavailable db)).

Definition set_sessions (db : Database) (l : list SessionRecord) : Database :=
  mkDatabase l (chat_history db) (documents db) (clock db) (unavailable db).

Definition set_chat_history (db : Database) (l : list ChatTurn) : Database :=
  mkDatabase (sessions db) l (documents db) (clock db) (unavailable db).

Definition set_documents (db : Database) (l : list DocumentRecord) : Database :=
  mkDatabase (sessions db) (chat_history db) l (clock db) (unavailable db).

Definition has_session (db : Database) (session_id : string) : bool :=
  existsb (fun s => String.eqb (sess_session_id s) session_id) (sessions db).

(** [save_session]; the unique index on [session_id] makes the insert of
    a second record with the same id raise. *)
Definition save_session (db : Database) (session_id : string) (metadata : Metadata)
  : bool * Database :=
  if negb (truthy session_id) then (false, db)
  else
    match get_collection db sessions_coll with
    | Raise _ => (false, db)
    | Ok _ =>
        let (now, db1) := utcnow db in
        if has_session db1 session_id then (false, db1)
        else (true, set_sessions db1 (sessions db1 ++ [mkSession session_id now metadata]))
    end.

Definition get_session (db : Database) (session_id : string) : option SessionRecord :=
  match get_collection db sessions_coll with
  | Raise _ => None
  | Ok _ => find (fun s => String.eqb (sess_session_id s) session_id) (sessions db)
  end.

Definition valid_roles : list string := ["user"; "assistant"; "system"].

Definition save_message (db : Database) (session_id message role : string)
  : bool * Database :=
  if negb (truthy session_id && truthy message && truthy role) then (false, db)
  else if negb (in_list role valid_roles) then (false, db)
  else
    let db1 :=
      match get_session db session_id with
      | Some _ => db
      | None => snd (save_session db session_id [])
      end in
    match get_collection db1 chat_history_coll with
    | Raise _ => (false, db1)
    | Ok _ =>
        let (now, db2) := utcnow db1 in
        (true, set_chat_history db2
                 (chat_history db2 ++ [mkChatTurn session_id message role now []]))
    end.

(** [.sort("timestamp", 1)]: ascending, ties in stored order. *)
Fixpoint insert_by_timestamp (m : ChatTurn) (l : list ChatTurn) : list ChatTurn :=
  match l with
  | [] => [m]
  | x :: r =>
      if msg_timestamp m <? msg_timestamp x then m :: l
      else x :: insert_by_timestamp m r
  end.

Definition sort_by_timestamp (l : list ChatTurn) : list ChatTurn :=
  fold_left (fun acc m => insert_by_timestamp m acc) l [].

(** [cursor.limit(n)]: at most [n] documents; [limit(0)] sets no limit. *)
Definition cursor_limit {A : Type} (n : nat) (l : list A) : list A :=
  match n with
  | 0 => l
  | S _ => firstn n l
  end.

Definition load_history (db : Database) (session_id : string) (limit : nat)
  : list (string * string * nat) :=
  match get_collection db chat_history_coll with
  | Raise _ => []
  | Ok _ =>
      map (fun m => (msg_role m, msg_content m, msg_timestamp m))
          (cursor_limit limit
             (sort_by_timestamp
                (filter (fun m => String.eqb (msg_session_id m) session_id)
                        (chat_history db))))
  end.

(* ================================================================= *)
(** ** document_storage.py *)

Definition save_document_metadata (db : Database)
    (session_id filename : string) (file_size : nat) (content_hash : string)
    (chunk_count : nat) : bool * Database :=
  match get_collection db documents_coll with
  | Raise _ => (false, db)
  | Ok _ =>
      let (now, db1) := utcnow db in
      (true, set_documents db1
               (documents db1 ++
                [mkDocumentRecord session_id filename file_size content_hash
                                  chunk_count now "processed"]))
  end.

(** [s.endswith(suffix)]. *)
Definition endswith (s suffix : string) : bool :=
  (String.length suffix <=? String.length s) &&
  String.eqb
    (String.substring (String.length s - String.length suffix)
                      (String.length suffix) s)
    suffix.

(** The mutable part of a [DocumentProcessor]. *)
Record DocumentProcessor : Type := mkDocumentProcessor {
  vector_store : option VectorStore
}.

Definition IngestResult : Type := (bool * string * nat)%type.

Section Ingestion.
Context `{Capabilities}.

(** [FAISS.from_documents(chunks, embeddings)]. *)
Definition from_documents (chunks : list Document) : Result VectorStore :=
  embs <- embed_documents chunks ;;
  Ok (combine chunks embs).

(** [vector_store.add_documents(chunks)]. *)
Definition add_documents (vs : VectorStore) (chunks : list Document)
  : Result VectorStore :=
  embs <- embed_documents chunks ;;
  Ok (vs ++ combine chunks embs)%list.

Definition processing_error (e : string) : IngestResult :=
  (false, "Error processing PDF: " ++ e, 0).

Definition process_pdf_file (dp : DocumentProcessor) (db : Database)
    (file_path filename session_id : string)
  : IngestResult * DocumentProcessor * Database :=
  if negb (endswith (lower file_path) ".pdf")
  then ((false, "Only PDF files are supported", 0), dp, db)
  else
    match pdf_load file_path with
    | Raise e => (processing_error e, dp, db)
    | Ok [] => ((false, "Failed to load PDF document", 0), dp, db)
    | Ok documents0 =>
        match split_documents 1000 100 documents0 with
        | Raise e => (processing_error e, dp, db)
        | Ok [] => ((false, "Failed to create document chunks", 0), dp, db)
        | Ok chunks =>
            match read_bytes file_path with
            | Raise e => (processing_error e, dp, db)
            | Ok raw =>
                let content_hash := sha256_hexdigest raw in
                match
                  match vector_store dp with
                  | None => from_documents chunks
                  | Some vs => add_documents vs chunks
                  end
                with
                | Raise e => (processing_error e, dp, db)
                | Ok vs' =>
                    let dp' := mkDocumentProcessor (Some vs') in
                    match getsize file_path with
                    | Raise e => (processing_error e, dp', db)
                    | Ok file_size =>
                        let (success, db') :=
                          save_document_metadata db session_id filename file_size
                            content_hash (List.length chunks) in
                        if success
                        then ((true,
                               "Processed " ++ filename ++ " with "
                                 ++ str_of_nat (List.length chunks) ++ " chunks",
                               List.length chunks), dp', db')
                        else ((false, "Failed to save document metadata", 0),
                              dp', db')
                    end
                end
            end
        end
    end.
End Ingestion.

(* ================================================================= *)
(** ** agent.py *)

Definition SYSTEM_PROMPT : string :=
  nl ++ "You are an assistant that answers user queries accurately and comprehensively based solely on the provided context. "
  ++ nl ++ "First, ALWAYS try to find the answer in the provided PDF document using the pdf_retrieval_tool. "
  ++ nl ++ "If the PDF doesn't contain relevant information, you must use the tavily_search_tool to search the web."
  ++ nl ++ "Provide clear, accurate, and relevant responses strictly based on the retrieved information. If the information is insufficient, state clearly that no relevant information was found and avoid making assumptions or generating unverified content."
  ++ nl.

Inductive Message : Type :=
| HumanMessage (text : string)
| AIMessage (text : string)
| SystemMessage (text : string).

Record State : Type := mkState {
  messages : list Message;
  query : string;
  thread_id : string;
  pdf_searched : bool;
  web_searched : bool;
  final_answer : string;
  pdf_found_content : bool
}.

(** The dict a node returns: the keys it sets, and the messages it adds. *)
Record Update : Type := mkUpdate {
  upd_pdf_searched : option bool;
  upd_web_searched : option bool;
  upd_final_answer : option string;
  upd_pdf_found_content : option bool;
  upd_messages : list Message
}.

Definition set_or {A : Type} (o : option A) (old : A) : A :=
  match o with
  | Some v => v
  | None => old
  end.

(** How the graph merges a node's dict into the state: keys overwrite,
    [messages] go through [add_messages]. *)
Definition apply_update (st : State) (u : Update) : State :=
  mkState (messages st ++ upd_messages u)%list
          (query st)
          (thread_id st)
          (set_or (upd_pdf_searched u) (pdf_searched st))
          (set_or (upd_web_searched u) (web_searched st))
          (set_or (upd_final_answer u) (final_answer st))
          (set_or (upd_pdf_found_content u) (pdf_found_content st)).

(** Calls to the external collaborators, in the order they are made. *)
Inductive Event : Type :=
| IndexQueried (q : string)
| LLMInvoked (prompt : string)
| WebSearched (q : string).

Definition is_web_search (e : Event) : bool :=
  match e with
  | WebSearched _ => true
  | _ => false
  end.

Definition web_search_calls (tr : list Event) : nat :=
  List.length (filter is_web_search tr).

Definition pdf_prompt (q pdf_result : string) : string :=
  nl ++ "Based on the following information from the PDF document, provide a clear and comprehensive answer to the user's query: "
     ++ dquote ++ q ++ dquote ++ nl
  ++ nl ++ "PDF Information:"
  ++ nl ++ pdf_result
  ++ nl
  ++ nl ++ "Please provide a well-structured response based on the PDF content. Make sure to be specific and accurate."
  ++ nl.

Definition web_prompt (q web_result : string) : string :=
  nl ++ "The user asked: " ++ dquote ++ q ++ dquote ++ nl
  ++ nl ++ "The information was not found in the PDF document, so I searched the web and found the following:"
  ++ nl
  ++ nl ++ web_result ++ nl
  ++ nl ++ "Provide a clear and comprehensive answer based solely on these web search results. If the web results are not relevant or insufficient, state clearly: "
  ++ dquote ++ "The web search results do not contain enough information to answer the query. ".

Inductive Node : Type := START | pdf_search | web_search | END.

Definition route_after_pdf (st : State) : Node :=
  if pdf_found_content st then END else web_search.

Definition no_documents_message : string := "Error: No PDF documents uploaded yet.".

Section Workflow.
Context `{Capabilities}.

Definition pdf_search_node (st : State) (vs : option VectorStore)
  : Update * list Event :=
  let q := query st in
  match vs with
  | None =>
      (mkUpdate (Some true) (Some false) (Some no_documents_message) (Some false)
                [AIMessage no_documents_message],
       [])
  | Some _ =>
      let pdf_result := pdf_retrieval_tool q vs in
      if negb (String.eqb pdf_result NO_RELEVANT_CONTENT)
         && negb (startswith pdf_result "Error:")
      then
        let prompt := pdf_prompt q pdf_result in
        let answer :=
          match llm_invoke SYSTEM_PROMPT prompt with
          | Ok response => response
          | Raise _ => "Based on the PDF: " ++ pdf_result
          end in
        (mkUpdate (Some true) (Some false) (Some answer) (Some true)
                  [AIMessage answer],
         [IndexQueried q; LLMInvoked prompt])
      else
        (mkUpdate (Some true) (Some false) (Some EmptyString) (Some false)
                  [AIMessage "Information not found in PDF, searching web..."],
         [IndexQueried q])
  end.

Definition web_search_node (st : State) : Update * list Event :=
  let q := query st in
  let web_result := tavily_search_tool q in
  let prompt := web_prompt q web_result in
  let answer :=
    match llm_invoke SYSTEM_PROMPT prompt with
    | Ok response => response
    | Raise _ => "Based on web search: " ++ web_result
    end in
  (mkUpdate None (Some true) (Some answer) None [AIMessage answer],
   [WebSearched q; LLMInvoked prompt]).

(** One transition of the graph built by [create_workflow]. *)
Definition step (vs : option VectorStore) (n : Node) (st : State)
  : Node * State * list Event :=
  match n with
  | START => (pdf_search, st, [])
  | pdf_search =>
      let (u, ev) := pdf_search_node st vs in
      let st' := apply_update st u in
      (route_after_pdf st', st', ev)
  | web_search =>
      let (u, ev) := web_search_node st in
      (END, apply_update st u, ev)
  | END => (END, st, [])
  end.

Fixpoint run (fuel : nat) (vs : option VectorStore) (n : Node) (st : State)
  : Node * State * list Event :=
  match fuel with
  | 0 => (n, st, [])
  | S fuel' =>
      match n with
      | END => (END, st, [])
      | _ =>
          let '(n1, st1, ev1) := step vs n st in
          let '(n2, st2, ev2) := run fuel' vs n1 st1 in
          (n2, st2, (ev1 ++ ev2)%list)
      end
  end.
End Workflow.

(** A compiled graph: [invoke] may raise. The lambda of [create_workflow]
    closes over the FAISS object, which ingestion extends in place, so
    the graph reads the index as it is when invoked: the index is an
    argument of [invoke] here. *)
Definition CompiledGraph : Type :=
  option VectorStore -> State -> Result State * list Event.

Record RAGPipeline : Type := mkRAGPipeline {
  graph : option CompiledGraph
}.

Definition history_line (m : string * string * nat) : string :=
  capitalize (fst (fst m)) ++ ": " ++ snd (fst m).

Definition history_kept (m : string * string * nat) : bool :=
  in_list (fst (fst m)) ["user"; "assistant"] && truthy (strip (snd (fst m))).

Definition history_context (history : list (string * string * nat)) : string :=
  match history with
  | [] => EmptyString
  | _ :: _ => join nl (map history_line (filter history_kept history))
  end.

Definition cue_words : list string :=
  ["earlier"; "previous"; "before"; "last"; "what did you say"].

Definition history_relevant (user_query : string) : bool :=
  existsb (fun keyword => contains keyword (lower user_query)) cue_words.

Definition history_prompt (context user_query : string) : string :=
  nl ++ "Conversation History:"
  ++ nl ++ context
  ++ nl
  ++ nl ++ "Current Query: " ++ user_query
  ++ nl
  ++ nl ++ "Please answer the query, taking into account the conversation history if relevant. "
  ++ nl ++ "If the query refers to prior messages, use the history to provide a context-aware response. "
  ++ nl ++ "Otherwise, proceed with the standard retrieval process using the PDF or web search tools."
  ++ nl.

Definition prompt_prefix (user_query : string)
    (history : list (string * string * nat)) : string :=
  if history_relevant user_query && truthy (history_context history)
  then history_prompt (history_context history) user_query
  else "Current Query: " ++ user_query.

Definition apology : string :=
  "I apologize, but I couldn't find relevant information to answer your question.".

Definition no_documents_error : string :=
  "Error: No PDF documents uploaded yet. Please upload a PDF first.".

Definition workflow_error : string :=
  "Error: Failed to initialize workflow due to missing vector store.".

Section Pipeline.
Context `{Capabilities}.

Definition create_workflow : CompiledGraph :=
  fun vs st =>
    let '(_, st', ev) := run 3 vs START st in
    (Ok st', ev).

Definition update_workflow (p : RAGPipeline) (dp : DocumentProcessor) : RAGPipeline :=
  match vector_store dp with
  | Some _ => mkRAGPipeline (Some create_workflow)
  | None => p
  end.

(** The two writes that end every path of [query]. *)
Definition save_exchange (db : Database) (thread user_query answer : string)
  : Database :=
  let db1 := snd (save_message db thread user_query "user") in
  snd (save_message db1 thread answer "assistant").

Definition initial_state (user_query thread : string)
    (history : list (string * string * nat)) : State :=
  mkState [HumanMessage (prompt_prefix user_query history)]
          user_query thread false false EmptyString false.

(** [RAGPipeline.query]: the answer, the pipeline and the database
    afterwards, and the external calls made. *)
Definition rag_query (p : RAGPipeline) (dp : DocumentProcessor) (db : Database)
    (user_query thread : string)
  : string * RAGPipeline * Database * list Event :=
  let history := load_history db thread 10 in
  match vector_store dp with
  | None =>
      (no_documents_error, p,
       save_exchange db thread user_query no_documents_error, [])
  | Some _ =>
      let p1 := match graph p with
                | Some _ => p
                | None => update_workflow p dp
                end in
      match graph p1 with
      | None =>
          (workflow_error, p1,
           save_exchange db thread user_query workflow_error, [])
      | Some g =>
          match g (vector_store dp) (initial_state user_query thread history) with
          | (Ok result, ev) =>
              let answer :=
                if negb (truthy (final_answer result))
                   || String.eqb (strip (final_answer result)) EmptyString
                then apology
                else final_answer result in
              (answer, p1, save_exchange db thread user_query answer, ev)
          | (Raise e, ev) =>
              let error_message :=
                "Sorry, I encountered an error while processing your query: " ++ e in
              (error_message, p1,
               save_exchange db thread user_query error_message, ev)
          end
      end
  end.
End Pipeline.

(* ================================================================= *)
(** ** history.py: session summaries *)

(** One output document of the [$group] stage. *)
Record SessionGroup : Type := mkSessionGroup {
  grp_id : string;
  grp_last_message : nat;
  grp_message_count : nat;
  grp_first_message : string
}.

(** The accumulators [$last], [$sum] and [$first] taking in one more
    document. *)
Fixpoint add_to_groups (m : ChatTurn) (groups : list SessionGroup)
  : list SessionGroup :=
  match groups with
  | [] => [mkSessionGroup (msg_session_id m) (msg_timestamp m) 1 (msg_content m)]
  | g :: rest =>
      if String.eqb (grp_id g) (msg_session_id m)
      then mkSessionGroup (grp_id g) (msg_timestamp m) (S (grp_message_count g))
                          (grp_first_message g) :: rest
      else g :: add_to_groups m rest
  end.

Definition group_by_session (l : list ChatTurn) : list SessionGroup :=
  fold_left (fun acc m => add_to_groups m acc) l [].

(** [{"$sort": {"last_message": -1}}]: descending, ties in given order. *)
Fixpoint insert_by_last_message (g : SessionGroup) (l : list SessionGroup)
  : list SessionGroup :=
  match l with
  | [] => [g]
  | x :: r =>
      if grp_last_message x <? grp_last_message g then g :: l
      else x :: insert_by_last_message g r
  end.

Definition sort_by_last_message (l : list SessionGroup) : list SessionGroup :=
  fold_left (fun acc g => insert_by_last_message g acc) l [].

Record SessionSummary : Type := mkSessionSummary {
  sum_session_id : string;
  sum_last_activity : nat;
  sum_message_count : nat;
  sum_preview : string
}.

Definition preview (first_message : string) : string :=
  if 50 <? String.length first_message
  then take 50 first_message ++ "..."
  else first_message.

Definition summary_of (g : SessionGroup) : SessionSummary :=
  mkSessionSummary (grp_id g) (grp_last_message g) (grp_message_count g)
                   (preview (grp_first_message g)).

Definition get_user_sessions (db : Database) (limit : nat) : list SessionSummary :=
  match get_collection db chat_history_coll with
  | Raise _ => []
  | Ok _ =>
      map summary_of
          (firstn limit (sort_by_last_message (group_by_session (chat_history db))))
  end.

(** The content of the first turn of a list, and the timestamp of the
    last. *)
Definition first_content (l : list ChatTurn) : string :=
  match l with
  | [] => EmptyString
  | m :: _ => msg_content m
  end.

Definition last_timestamp (l : list ChatTurn) : nat :=
  fold_left (fun _ m => msg_timestamp m) l 0.

Definition turns_of (sid : string) (l : list ChatTurn) : list ChatTurn :=
  filter (fun m => String.eqb (msg_session_id m) sid) l.

(* ================================================================= *)
(** ** document_storage.py: reading the metadata back *)

Definition get_session_documents (db : Database) (session_id : string)
  : list DocumentRecord :=
  match get_collection db documents_coll with
  | Raise _ => []
  | Ok _ => filter (fun d => String.eqb (doc_session_id d) session_id) (documents db)
  end.

(** [round(x, 2)]: to the nearest hundredth, ties to the even one. *)
Definition round2 (x : Q) : Q :=
  let scaled := (x * 100)%Q in
  let low := Qfloor scaled in
  let nearest :=
    match (2 * (scaled - inject_Z low) ?= 1)%Q with
    | Lt => low
    | Gt => (low + 1)%Z
    | Eq => if Z.even low then low else (low + 1)%Z
    end in
  (inject_Z nearest / 100)%Q.

Record DocumentInfo : Type := mkDocumentInfo {
  document_count : nat;
  total_size_mb : Q;
  total_chunks : nat;
  info_documents : list DocumentRecord
}.

Definition get_session_document_info (db : Database) (session_id : string)
  : DocumentInfo :=
  let docs := get_session_documents db session_id in
  let total_size :=
    (inject_Z (Z.of_nat (list_sum (map doc_file_size docs)))
       / inject_Z (1024 * 1024))%Q in
  mkDocumentInfo (List.length docs) (round2 total_size)
                 (list_sum (map doc_chunk_count docs)) docs.

(* ================================================================= *)
(** ** app.py *)

(** [repr] of the float returned by [round(x, 2)], for a non-negative
    number of hundredths below 10^16: the integer part, a point, and one
    or two decimals. *)
Definition float_repr (x : Q) : string :=
  let h := Z.to_nat (Qfloor (x * 100)%Q) in
  str_of_nat (h / 100) ++ "." ++
  (if h mod 10 =? 0 then str_of_nat (h mod 100 / 10)
   else (if h mod 100 <? 10 then "0" else EmptyString) ++ str_of_nat (h mod 100)).

Definition file_line (doc : DocumentRecord) : string :=
  "  • " ++ doc_filename doc ++ " (" ++ str_of_nat (doc_chunk_count doc) ++ " chunks)".

(** [_format_session_info]. *)
Definition format_session_info (current_session_id : string) (doc_info : DocumentInfo)
  : string :=
  let session_short_id := take 8 current_session_id ++ "..." in
  let info_parts :=
    [ "📋 Session: " ++ session_short_id;
      "📁 Documents: " ++ str_of_nat (document_count doc_info);
      "📄 Chunks: " ++ str_of_nat (total_chunks doc_info) ] in
  let info_parts :=
    if Qgtb (total_size_mb doc_info) 0
    then (info_parts ++
          [("💾 Size: " ++ float_repr (total_size_mb doc_info) ++ "MB")%string])%list
    else info_parts in
  let info_parts :=
    match info_documents doc_info with
    | [] => info_parts
    | documents0 =>
        (info_parts ++
         (nl ++ "📚 Uploaded Files:")%string :: map file_line documents0)%list
    end in
  join nl info_parts.

(** One entry of the chat window: role and content. *)
Definition UiMessage : Type := (string * string)%type.

(** [os.path.basename]. *)
Fixpoint basename (path : string) : string :=
  match path with
  | EmptyString => EmptyString
  | String _ rest => if contains "/" path then basename rest else path
  end.

Section App.
Context `{Capabilities}.

(** [os.path.exists]. *)
Variable path_exists : string -> bool.

(** [chat_response]: the chat window and the session info, then the
    pipeline and the database afterwards and the external calls made.
    Every call in the body catches its own exceptions, so the [except]
    branch is not reached. *)
Definition chat_response (current_session_id : string)
    (p : RAGPipeline) (dp : DocumentProcessor) (db : Database)
    (message : string) (history : list UiMessage)
  : list UiMessage * string * RAGPipeline * Database * list Event :=
  if negb (truthy (strip message)) then (history, EmptyString, p, db, [])
  else
    let '(response, p', db', ev) := rag_query p dp db message current_session_id in
    let history' := (history ++ [("user", message); ("assistant", response)])%list in
    let doc_info := get_session_document_info db' current_session_id in
    (history', format_session_info current_session_id doc_info, p', db', ev).

(** [load_session]: the chat window, the session info and the current
    session identifier afterwards. *)
Definition load_session (current_session_id : string) (db : Database)
    (session_id : string) : list UiMessage * string * string :=
  if negb (truthy (strip session_id))
  then ([], "Please provide a valid session ID", current_session_id)
  else
    let history_tuples := load_history db session_id 50 in
    let gradio_history :=
      map (fun m => (fst (fst m), snd (fst m)))
          (filter (fun m => in_list (fst (fst m)) ["user"; "assistant"])
                  history_tuples) in
    let doc_info := get_session_document_info db session_id in
    (gradio_history, format_session_info session_id doc_info, session_id).

(** The body of the loop of [upload_pdf] for one file: the lines so far,
    the chunk total so far, the processor and the database. *)
Definition upload_one (current_session_id : string)
    (acc : list string * nat * DocumentProcessor * Database) (file : option string)
  : list string * nat * DocumentProcessor * Database :=
  let '(upload_results, total, dp, db) := acc in
  match file with
  | None => ((upload_results ++ ["❌ No file provided"])%list, total, dp, db)
  | Some file_path =>
      if negb (path_exists file_path)
      then ((upload_results ++
             [("❌ " ++ file_path ++ ": File not found")%string])%list,
            total, dp, db)
      else
        let filename := basename file_path in
        let '(success, message, chunk_count, dp', db') :=
          process_pdf_file dp db file_path filename current_session_id in
        if success
        then ((upload_results ++
               [("✅ " ++ filename ++ ": " ++ message)%string])%list,
              total + chunk_count, dp', db')
        else ((upload_results ++
               [("❌ " ++ filename ++ ": " ++ message)%string])%list,
              total, dp', db')
  end.

Definition upload_all (current_session_id : string)
    (dp : DocumentProcessor) (db : Database) (files : list (option string))
  : list string * nat * DocumentProcessor * Database :=
  fold_left (upload_one current_session_id) files ([], 0, dp, db).

(** [upload_pdf]: the status text and the session info, then the
    pipeline, the processor and the database afterwards. *)
Definition upload_pdf (current_session_id : string)
    (p : RAGPipeline) (dp : DocumentProcessor) (db : Database)
    (files : list (option string))
  : string * string * RAGPipeline * DocumentProcessor * Database :=
  match files with
  | [] => ("No files uploaded.", EmptyString, p, dp, db)
  | _ :: _ =>
      let '(upload_results, total_chunks0, dp', db') :=
        upload_all current_session_id dp db files in
      let p' := update_workflow p dp' in
      let doc_info := get_session_document_info db' current_session_id in
      let session_info := format_session_info current_session_id doc_info in
      let result_message := join nl upload_results in
      let result_message :=
        if 0 <? total_chunks0
        then result_message ++ nl ++ nl ++ "📊 Total chunks processed: "
               ++ str_of_nat total_chunks0
        else result_message in
      (result_message, session_info, p', dp', db')
  end.
End App.

(* ================================================================= *)
(** ** Orderings and sample data used in the statements *)

(** Python's [>] and [==] on binary64 floats, read off the IEEE
    comparison, and Python's [/], which raises on a zero divisor. *)
Definition float_gt (a b : float) : bool :=
  match PrimFloat.compare a b with
  | FGt => true
  | _ => false
  end.

Definition float_eq (a b : float) : bool :=
  match PrimFloat.compare a b with
  | FEq => true
  | _ => false
  end.

Definition float_div (a b : float) : Result float :=
  if float_eq b 0%float then Raise "float division by zero"
  else Ok (a / b)%float.

Definition float_gt_not_eq (a b : float) :
  float_gt a b = true -> float_eq a b = false.
Proof.
  unfold float_gt, float_eq. destruct (PrimFloat.compare a b); congruence.
Qed.

(** The binary64 value of the literal [0.4]. *)
Definition float_threshold : float := 0x1.999999999999ap-2%float.


Definition sorted_hits : list (Document * float) :=
  [ (mkDocument "Revenue grew 12% in Q1", 0.5%float);
    (mkDocument " Costs fell 3% ", 1%float);
    (mkDocument "Headcount was flat", 1.25%float) ].


Definition sample_web_results : list WebResult :=
  [ mkWebResult (Some "https://a.example") (Some "alpha");
    mkWebResult (Some "https://b.example") (Some "   ");
    mkWebResult None (Some "gamma");
    mkWebResult (Some "https://d.example") (Some "delta") ].

(** The bytes [%PDF]. *)
Definition pdf_magic : list byte := [x25; x50; x44; x46].

(** A stand-in for the digest in the sample worlds. *)
Definition toy_digest (raw : list byte) : string :=
  str_of_nat (fold_left (fun acc b => acc + Byte.to_nat b) raw 0).

(** A world in which every collaborator answers. *)
Definition sample_world : Capabilities :=
  {| score := float;
     score_one := 1%float;
     score_threshold := float_threshold;
     score_add := PrimFloat.add;
     score_div := float_div;
     score_gt := float_gt;
     score_eq := float_eq;
     score_gt_not_eq := float_gt_not_eq;
     similarity_search_with_score := fun _ _ _ => Ok sorted_hits;
     embed_documents := fun chunks => Ok (map (fun _ => [1%Q]) chunks);
     llm_invoke := fun _ _ => Ok "An answer.";
     tavily_invoke := fun _ _ => Ok (TavilyList sample_web_results);
     pdf_load := fun _ => Ok [mkDocument "page one"];
     split_documents := fun _ _ docs => Ok docs;
     read_bytes := fun _ => Ok pdf_magic;
     getsize := fun _ => Ok 4;
     sha256_hexdigest := toy_digest |}.

(** A world whose index query raises. *)
Definition broken_index_world : Capabilities :=
  {| score := float;
     score_one := 1%float;
     score_threshold := float_threshold;
     score_add := PrimFloat.add;
     score_div := float_div;
     score_gt := float_gt;
     score_eq := float_eq;
     score_gt_not_eq := float_gt_not_eq;
     similarity_search_with_score := fun _ _ _ => Raise "index unreadable";
     embed_documents := fun chunks => Ok (map (fun _ => [1%Q]) chunks);
     llm_invoke := fun _ _ => Ok "An answer.";
     tavily_invoke := fun _ _ => Ok (TavilyList sample_web_results);
     pdf_load := fun _ => Ok [mkDocument "page one"];
     split_documents := fun _ _ docs => Ok docs;
     read_bytes := fun _ => Ok pdf_magic;
     getsize := fun _ => Ok 4;
     sha256_hexdigest := toy_digest |}.

Definition empty_db : Database :=
  mkDatabase [] [] [] 0 (fun _ => false).

(** A database whose [sessions] collection raises on every operation. *)
Definition sessions_down_db : Database :=
  mkDatabase [] [] [] 0
    (fun c => match c with sessions_coll => true | _ => false end).

(** A database whose [documents] collection raises on every operation. *)
Definition documents_down_db : Database :=
  mkDatabase [] [] [] 0
    (fun c => match c with documents_coll => true | _ => false end).

(** Two ingestions in a row, under different names and sessions, of
    files holding the same bytes. *)
Definition first_ingest : IngestResult * DocumentProcessor * Database :=
  @process_pdf_file sample_world (mkDocumentProcessor None) empty_db
     "report.pdf" "report.pdf" "s1".

Definition second_ingest : IngestResult * DocumentProcessor * Database :=
  @process_pdf_file sample_world (snd (fst first_ingest)) (snd first_ingest)
     "copy.pdf" "copy.pdf" "s2".

(** A world whose web search returns three blank hits before one with
    content. *)
Definition blank_first_results : list WebResult :=
  [ mkWebResult (Some "https://a.example") (Some "  ");
    mkWebResult (Some "https://b.example") None;
    mkWebResult (Some "https://c.example") (Some EmptyString);
    mkWebResult (Some "https://d.example") (Some "delta") ].

Definition blank_first_world : Capabilities :=
  {| score := float;
     score_one := 1%float;
     score_threshold := float_threshold;
     score_add := PrimFloat.add;
     score_div := float_div;
     score_gt := float_gt;
     score_eq := float_eq;
     score_gt_not_eq := float_gt_not_eq;
     similarity_search_with_score := fun _ _ _ => Ok [];
     embed_documents := fun chunks => Ok (map (fun _ => [1%Q]) chunks);
     llm_invoke := fun _ _ => Raise "model unreachable";
     tavily_invoke := fun _ _ => Ok (TavilyList blank_first_results);
     pdf_load := fun _ => Ok [mkDocument "page one"];
     split_documents := fun _ _ docs => Ok docs;
     read_bytes := fun _ => Ok pdf_magic;
     getsize := fun _ => Ok 4;
     sha256_hexdigest := toy_digest |}.

(** A session that already holds an exchange. *)
Definition talked_db : Database :=
  snd (save_message (snd (save_message empty_db "thread-1" "What did we discuss?" "user"))
         "thread-1" "We discussed revenue." "assistant").

(* ================================================================= *)
(** ** Vocabulary for the properties of the store *)

Definition by_timestamp (a b : ChatTurn) : Prop :=
  msg_timestamp a <= msg_timestamp b.

(** The turns of a session, in stored order. *)
Definition session_turns (db : Database) (session_id : string) : list ChatTurn :=
  filter (fun m => String.eqb (msg_session_id m) session_id) (chat_history db).

Definition turn_tuple (m : ChatTurn) : string * string * nat :=
  (msg_role m, msg_content m, msg_timestamp m).

(** Stored order agrees with time: timestamps do not decrease along the
    collection and lie before the clock. *)
Definition history_in_order (db : Database) : Prop :=
  StronglySorted by_timestamp (chat_history db) /\
  Forall (fun t => msg_timestamp t < clock db) (chat_history db).

(** The unique index on [session_id] of the [sessions] collection. *)
Definition sessions_unique (db : Database) : Prop :=
  NoDup (map sess_session_id (sessions db)).

(** The entries of the index held by a processor; none before the first
    ingestion. *)
Definition indexed (dp : DocumentProcessor) : VectorStore :=
  match vector_store dp with
  | None => []
  | Some vs => vs
  end.

(** A session after [n] accepted user turns. *)
Fixpoint chatter (n : nat) (db : Database) : Database :=
  match n with
  | 0 => db
  | S k => snd (save_message (chatter k db) "thread-1" "hello" "user")
  end.

Definition long_db : Database := chatter 10 empty_db.

(** What the groups hold after the documents of [l] have been taken in. *)
Definition groups_describe (l : list ChatTurn) (groups : list SessionGroup) : Prop :=
  NoDup (map grp_id groups) /\
  (forall g, In g groups ->
     turns_of (grp_id g) l <> [] /\
     grp_message_count g = List.length (turns_of (grp_id g) l) /\
     grp_first_message g = first_content (turns_of (grp_id g) l) /\
     grp_last_message g = last_timestamp (turns_of (grp_id g) l)) /\
  (forall m, In m l -> In (msg_session_id m) (map grp_id groups)).

Definition by_last_message (a b : SessionGroup) : Prop :=
  grp_last_message b <= grp_last_message a.

(** A database with two sessions, the second one active last. *)
Definition two_sessions_db : Database :=
  snd (save_message talked_db "thread-2"
         "A long question about the revenue reported in the first quarter, please."
         "user").

(** An upload of three entries: a PDF, a missing entry and a text file. *)
Definition sample_upload : list (option string) :=
  [Some "/tmp/gradio/report.pdf"; None; Some "/tmp/gradio/notes.txt"].


(** The selection rule in the words of the specification: the first
    three results among those that have non-empty content. *)
Definition first_three_with_content (results : list WebResult) : list WebResult :=
  firstn 3 (filter has_content results).

(** Five hits, the first one blank. *)
Definition five_web_results : list WebResult :=
  [ mkWebResult (Some "https://0.example") (Some "  ");
    mkWebResult (Some "https://a.example") (Some "alpha");
    mkWebResult (Some "https://b.example") (Some "beta");
    mkWebResult (Some "https://c.example") (Some "gamma");
    mkWebResult (Some "https://d.example") (Some "delta") ].

(* ================================================================= *)
(** * Properties *)

(** ** The relevance gate of [pdf_retrieval_tool] *)

Lemma truthy_true_iff (s : string) : truthy s = true <-> s <> EmptyString.
Proof.
  destruct s; simpl; split; intros; congruence.
Qed.


Lemma relevant_content_filter `{Capabilities} (results : list (Document * score)) :
  Forall divisor_nonzero results ->
  relevant_content results = Ok (map chunk_text (filter retained results)).
Proof.
  induction 1 as [| [doc d] rest Hd _ IH]; [reflexivity|].
  destruct Hd as (s & Hs). cbn [snd] in Hs.
  cbn [relevant_content filter]. unfold retained at 1. cbn [fst snd].
  rewrite Hs, IH. cbn [bind].
  destruct (score_gt s score_threshold && truthy (strip (page_content doc)));
    reflexivity.
Qed.




(** In binary64 the similarity is a rounded quotient: neighbouring
    distances can share one similarity, and the distance just below 1.5
    has the similarity of 1.5, the threshold itself. *)
Example binary64_similarity_is_rounded :
  @similarity sample_world 1%float =
    @similarity sample_world 0x1.0000000000001p+0%float /\
  @similarity sample_world 0x1.7ffffffffffffp+0%float = Ok float_threshold.
Proof.
  split; reflexivity.
Qed.

(** ** The grounded context *)

Lemma StronglySorted_filter {A : Type} (R : A -> A -> Prop) (f : A -> bool)
    (l : list A) :
  StronglySorted R l -> StronglySorted R (filter f l).
Proof.
  induction 1 as [| a l Hs IH Hall]; simpl; [constructor|].
  destruct (f a); [|exact IH].
  constructor; [exact IH|].
  rewrite Forall_forall in *. intros x Hx. apply filter_In in Hx as [Hx _]. auto.
Qed.

Lemma In_firstn {A : Type} (n : nat) (l : list A) (x : A) :
  In x (firstn n l) -> In x l.
Proof.
  intros Hx. rewrite <- (firstn_skipn n l). apply in_or_app. left. exact Hx.
Qed.

(** The output of the tool when the index answers and no division
    raises. *)
Lemma pdf_retrieval_tool_output `{Capabilities}
    (q : string) (vs : VectorStore) (results : list (Document * score)) :
  similarity_search_with_score vs q 3 = Ok results ->
  Forall divisor_nonzero results ->
  pdf_retrieval_tool q (Some vs) =
    match filter retained results with
    | [] => NO_RELEVANT_CONTENT
    | _ :: _ =>
        "PDF Content: " ++
          join (nl ++ nl) (map chunk_text (firstn 2 (filter retained results)))
    end.
Proof.
  intros Hsearch Hok. unfold pdf_retrieval_tool, pdf_retrieval_body.
  rewrite Hsearch. cbn [bind].
  destruct results as [| [best_doc best_score] rest] eqn:Eres; [reflexivity|].
  rewrite <- Eres in *.
  assert (Hbest : exists s, similarity best_score = Ok s).
  { rewrite Eres in Hok. inversion Hok; assumption. }
  destruct Hbest as (s & Hs). rewrite Hs. cbn [bind].
  rewrite (relevant_content_filter _ Hok). cbn [bind].
  rewrite <- firstn_map.
  destruct (filter retained results) as [| k ks]; reflexivity.
Qed.



Lemma sorted_hits_nonzero : Forall (@divisor_nonzero sample_world) sorted_hits.
Proof.
  repeat constructor; eexists; vm_compute; reflexivity.
Qed.


(** ** The web fallback searcher *)

Lemma enumerate_length {A : Type} (l : list A) (start : nat) :
  List.length (enumerate start l) = List.length l.
Proof.
  revert start. induction l as [| x r IH]; intros start; simpl; [reflexivity|].
  now rewrite IH.
Qed.

Lemma enumerate_In {A : Type} (l : list A) (start i : nat) (x : A) :
  In (i, x) (enumerate start l) <->
  exists k, i = start + k /\ nth_error l k = Some x.
Proof.
  revert start. induction l as [| y r IH]; intros start; simpl.
  - split; [contradiction|]. intros (k & _ & Hk). destruct k; discriminate.
  - rewrite IH. split.
    + intros [Heq | (k & Hi & Hk)].
      * inversion Heq; subst. exists 0. split; [lia|reflexivity].
      * exists (S k). split; [lia|exact Hk].
    + intros (k & Hi & Hk). destruct k as [| k]; simpl in Hk.
      * left. inversion Hk; subst. f_equal. lia.
      * right. exists k. split; [lia|exact Hk].
Qed.

Lemma nth_error_firstn_Some {A : Type} (n k : nat) (l : list A) (x : A) :
  nth_error (firstn n l) k = Some x <-> k < n /\ nth_error l k = Some x.
Proof.
  revert k l. induction n as [| n IH]; intros k l.
  - simpl. split; [destruct k; discriminate | lia].
  - destruct l as [| y r].
    + simpl. split; [destruct k; discriminate|].
      intros [_ Hk]. destruct k; discriminate.
    + destruct k as [| k]; simpl.
      * split; [intros Hx; split; [lia|exact Hx] | tauto].
      * rewrite IH. split; intros [Hlt Hx]; (split; [lia|exact Hx]).
Qed.

Lemma take_length (n : nat) (s : string) : String.length (take n s) <= n.
Proof.
  unfold take. revert s. induction n as [| n IH]; intros s; simpl.
  - destruct s; simpl; lia.
  - destruct s as [| c r]; simpl; [lia|].
    specialize (IH r). lia.
Qed.

Lemma has_content_Some (r : WebResult) :
  has_content r = true ->
  exists c, content r = Some c /\ strip c <> EmptyString.
Proof.
  unfold has_content. destruct (content r) as [c|]; simpl.
  - intros Hc. exists c. split; [reflexivity|]. now apply truthy_true_iff.
  - discriminate.
Qed.

(** C6 as stated fails: the tool does not select the first three
    results that have non-empty content. It cuts the list to its first
    three results and then drops the blank ones, so with a blank first
    hit it selects two snippets where the stated rule selects three. *)
Lemma blank_hit_uses_up_a_slot :
  content_parts five_web_results =
    ["Source 2 (https://a.example): alpha...";
     "Source 3 (https://b.example): beta..."] /\
  map (fun r => get_default (content r) EmptyString)
      (first_three_with_content five_web_results) = ["alpha"; "beta"; "gamma"] /\
  List.length (content_parts five_web_results) <>
    List.length (first_three_with_content five_web_results).
Proof.
  split; [reflexivity|]. split; [reflexivity|]. vm_compute. discriminate.
Qed.

(** C6, amended. The search client is configured for 5 results. Of the
    hits it returns, the tool formats those among the first three whose
    trimmed content is non-empty, hence at most three, and fewer when
    one of the first three is blank; each formatted snippet carries its
    URL and at most the first 400 characters of the content. *)
Theorem web_snippets_bounded `{Capabilities}
    (q : string) (results : list WebResult) :
  tavily_invoke tavily_tool q = Ok (TavilyList results) ->
  max_results tavily_tool = 5 /\
  List.length (content_parts results) <= 3 /\
  (forall part, In part (content_parts results) ->
     exists i r c,
       i < 3 /\ nth_error results i = Some r /\
       content r = Some c /\ strip c <> EmptyString /\
       String.length (take 400 c) <= 400 /\
       part = "Source " ++ str_of_nat (S i) ++ " ("
                ++ get_default (url r) "No URL" ++ "): " ++ take 400 c ++ "...") /\
  (forall i r, i < 3 -> nth_error results i = Some r -> has_content r = true ->
     In (format_part (S i) r) (content_parts results)) /\
  (content_parts results <> [] ->
     tavily_search_tool q =
       "Web Search Results: " ++ join (nl ++ nl) (content_parts results)).
Proof.
  intros Hinvoke. split; [reflexivity|]. split; [|split; [|split]].
  - unfold content_parts. rewrite length_map.
    etransitivity; [apply filter_length_le|].
    rewrite enumerate_length. apply firstn_le_length.
  - intros part Hpart. unfold content_parts in Hpart.
    apply in_map_iff in Hpart as ([i r] & Hfmt & Hin). simpl in Hfmt.
    apply filter_In in Hin as [Hin Hc]. simpl in Hc.
    apply enumerate_In in Hin as (k & Hi & Hk).
    apply nth_error_firstn_Some in Hk as [Hlt Hk].
    destruct (has_content_Some r Hc) as (c & Hcont & Hne).
    exists k, r, c. repeat split; auto using take_length.
    subst part i. unfold format_part. rewrite Hcont. reflexivity.
  - intros i r Hlt Hnth Hc. unfold content_parts.
    apply in_map_iff. exists (S i, r). split; [reflexivity|].
    apply filter_In. split; [|exact Hc].
    apply enumerate_In. exists i. split; [lia|].
    apply nth_error_firstn_Some. auto.
  - intros Hparts. unfold tavily_search_tool. rewrite Hinvoke.
    destruct results as [| r0 rest]; [exfalso; apply Hparts; reflexivity|].
    destruct (content_parts (r0 :: rest)); [congruence|reflexivity].
Qed.

Lemma web_snippets_bounded_witness :
  @tavily_search_tool sample_world "revenue?" =
    "Web Search Results: Source 1 (https://a.example): alpha..."
      ++ nl ++ nl ++ "Source 3 (No URL): gamma...".
Proof.
  destruct (@web_snippets_bounded sample_world "revenue?" sample_web_results)
    as (_ & _ & _ & _ & Hout).
  - reflexivity.
  - etransitivity; [apply Hout; vm_compute; discriminate | reflexivity].
Defined.

(** ** The chat history store *)

Lemma in_list_In (s : string) (l : list string) :
  in_list s l = true <-> In s l.
Proof.
  unfold in_list. rewrite existsb_exists. split.
  - intros (x & Hx & Heq). apply String.eqb_eq in Heq. now subst.
  - intros Hin. exists s. split; [exact Hin | apply String.eqb_refl].
Qed.

Lemma has_session_find (db : Database) (sid : string) :
  has_session db sid =
  match find (fun s => String.eqb (sess_session_id s) sid) (sessions db) with
  | Some _ => true
  | None => false
  end.
Proof.
  unfold has_session. induction (sessions db) as [| s r IH]; simpl; [reflexivity|].
  destruct (String.eqb (sess_session_id s) sid); simpl; [reflexivity | exact IH].
Qed.

Lemma has_session_snoc (db : Database) (sid : string) (s : SessionRecord) :
  sess_session_id s = sid ->
  has_session (set_sessions db (sessions db ++ [s])) sid = true.
Proof.
  intros Hs. unfold has_session, set_sessions; simpl.
  rewrite existsb_app. simpl. rewrite Hs, String.eqb_refl.
  now rewrite orb_true_r.
Qed.

(** What [save_session] leaves untouched. *)
Lemma save_session_frame (db : Database) (sid : string) (md : Metadata) :
  chat_history (snd (save_session db sid md)) = chat_history db /\
  documents (snd (save_session db sid md)) = documents db /\
  unavailable (snd (save_session db sid md)) = unavailable db.
Proof.
  unfold save_session.
  destruct (negb (truthy sid)); [auto|].
  destruct (get_collection db sessions_coll); [|auto].
  simpl. destruct (has_session _ sid); simpl; auto.
Qed.

(** After the session step of [save_message] the session record exists,
    when the [sessions] collection answers. *)
Lemma session_ensured (db : Database) (sid : string) :
  sid <> EmptyString ->
  unavailable db sessions_coll = false ->
  has_session
    (match get_session db sid with
     | Some _ => db
     | None => snd (save_session db sid [])
     end) sid = true.
Proof.
  intros Hsid Hup. unfold get_session, get_collection. rewrite Hup.
  destruct (find _ (sessions db)) eqn:Ef.
  - rewrite has_session_find, Ef. reflexivity.
  - unfold save_session, get_collection. rewrite Hup.
    apply truthy_true_iff in Hsid. rewrite Hsid. simpl.
    assert (Hno : has_session (snd (utcnow db)) sid = false).
    { rewrite has_session_find. simpl. now rewrite Ef. }
    simpl in Hno. rewrite Hno. simpl.
    now apply (has_session_snoc (snd (utcnow db))).
Qed.

(** The three outcomes of [save_message]. *)
Lemma save_message_cases (db : Database) (sid msg role : string) :
  let db1 := match get_session db sid with
             | Some _ => db
             | None => snd (save_session db sid [])
             end in
  ((sid = EmptyString \/ msg = EmptyString \/ ~ In role valid_roles) /\
   save_message db sid msg role = (false, db))
  \/
  (sid <> EmptyString /\ msg <> EmptyString /\ In role valid_roles /\
   unavailable db chat_history_coll = true /\
   save_message db sid msg role = (false, db1))
  \/
  (sid <> EmptyString /\ msg <> EmptyString /\ In role valid_roles /\
   unavailable db chat_history_coll = false /\
   save_message db sid msg role =
     (true, set_chat_history (snd (utcnow db1))
              (chat_history db1 ++ [mkChatTurn sid msg role (clock db1) []]))).
Proof.
  intros db1. unfold save_message. fold db1.
  destruct sid as [| c0 sid0]; [left; split; [auto | reflexivity]|].
  destruct msg as [| c1 msg0]; [left; split; [auto | reflexivity]|].
  destruct role as [| c2 role0].
  { left. split; [|reflexivity]. right; right. unfold valid_roles. simpl.
    intros [Hf | [Hf | [Hf | []]]]; discriminate. }
  cbn [truthy andb negb].
  destruct (in_list (String c2 role0) valid_roles) eqn:Erole; cbn [negb].
  2:{ left. split; [|reflexivity]. right; right. intros Hin.
      apply in_list_In in Hin. congruence. }
  apply in_list_In in Erole.
  assert (Hflag : unavailable db1 chat_history_coll = unavailable db chat_history_coll).
  { subst db1. destruct (get_session db _); [reflexivity|].
    now rewrite (proj2 (proj2 (save_session_frame db _ []))). }
  unfold get_collection. rewrite Hflag.
  destruct (unavailable db chat_history_coll) eqn:Eh; right; [left | right];
    repeat split; try discriminate; auto.
Qed.

(** C9. The code does not keep what the claim and the docstring of
    [save_message] state: with the [sessions] collection raising, the
    call ignores the failed lookup and the failed creation of the
    session, succeeds, and writes a turn whose session identifier has no
    session record. *)
Lemma turn_written_without_session :
  fst (save_message sessions_down_db "s1" "hello" "user") = true /\
  ~ (forall t,
        In t (chat_history (snd (save_message sessions_down_db "s1" "hello" "user"))) ->
        has_session (snd (save_message sessions_down_db "s1" "hello" "user"))
                    (msg_session_id t) = true).
Proof.
  split; [reflexivity|]. intros Hall.
  specialize (Hall (mkChatTurn "s1" "hello" "user" 0 []) (or_introl eq_refl)).
  discriminate Hall.
Qed.

(** What [save_message] does keep. A call with an empty session
    identifier, empty content or a role outside user/assistant/system
    returns failure and leaves the database as it was. Any other call
    writes at most one turn, at the end of the history; the turn carries
    the given session identifier, content and role, the role is one of
    the three and the content is non-empty; its session record exists
    afterwards whenever the [sessions] collection answers. *)
Theorem save_message_writes_valid_turns
    (db db' : Database) (sid msg role : string) (ok : bool) :
  save_message db sid msg role = (ok, db') ->
  ((sid = EmptyString \/ msg = EmptyString \/ ~ In role valid_roles) ->
     ok = false /\ db' = db) /\
  (ok = false -> chat_history db' = chat_history db) /\
  (ok = true ->
     exists t,
       chat_history db' = (chat_history db ++ [t])%list /\
       msg_session_id t = sid /\ msg_content t = msg /\ msg_role t = role /\
       In role ["user"; "assistant"; "system"] /\ msg <> EmptyString /\
       sid <> EmptyString /\
       (unavailable db sessions_coll = false -> has_session db' sid = true)).
Proof.
  intros Hsave.
  pose proof (save_message_cases db sid msg role) as Hcases. cbv zeta in Hcases.
  pose proof (save_session_frame db sid []) as (Hch & _ & _).
  assert (Hch1 : chat_history
                   (match get_session db sid with
                    | Some _ => db
                    | None => snd (save_session db sid [])
                    end) = chat_history db).
  { destruct (get_session db sid); [reflexivity | exact Hch]. }
  destruct Hcases as [(Hbad & He) | [(Hs & Hm & Hr & _ & He) | (Hs & Hm & Hr & _ & He)]];
    rewrite He in Hsave; inversion Hsave; subst ok db'; clear Hsave.
  - repeat split; auto; discriminate.
  - split; [tauto|]. split; [intros _; exact Hch1 | discriminate].
  - split; [tauto|]. split; [discriminate|]. intros _.
    eexists. split; [simpl; rewrite Hch1; reflexivity|].
    repeat split; auto.
    intros Hup. pose proof (session_ensured db sid Hs Hup) as Hens.
    unfold has_session in *. exact Hens.
Qed.

Lemma save_message_writes_valid_turns_witness :
  exists t,
    chat_history (snd (save_message empty_db "s1" "hello" "user")) = [t] /\
    msg_role t = "user" /\
    has_session (snd (save_message empty_db "s1" "hello" "user")) "s1" = true.
Proof.
  destruct (save_message_writes_valid_turns empty_db
              (snd (save_message empty_db "s1" "hello" "user"))
              "s1" "hello" "user" true eq_refl) as (_ & _ & Hw).
  destruct (Hw eq_refl) as (t & Hh & _ & _ & Hr & _ & _ & _ & Hsess).
  exists t. split; [exact Hh|]. split; [exact Hr|]. apply Hsess. reflexivity.
Defined.

(** ** Persistence of the exchange by [query] *)

Lemma save_message_appends (db : Database) (sid msg role : string) :
  sid <> EmptyString -> msg <> EmptyString -> In role valid_roles ->
  unavailable db chat_history_coll = false ->
  chat_history (snd (save_message db sid msg role)) =
    (chat_history db ++ [mkChatTurn sid msg role
                           (clock (snd (save_message db sid msg role)) - 1) []])%list /\
  unavailable (snd (save_message db sid msg role)) = unavailable db.
Proof.
  intros Hs Hm Hr Hup.
  pose proof (save_message_cases db sid msg role) as Hcases. cbv zeta in Hcases.
  pose proof (save_session_frame db sid []) as (Hch & _ & Hun).
  destruct Hcases as [(Hbad & _) | [(_ & _ & _ & Hdown & _) | (_ & _ & _ & _ & He)]].
  - tauto.
  - congruence.
  - rewrite He. simpl.
    destruct (get_session db sid); simpl; rewrite ?Hch, ?Hun, ?Nat.sub_0_r; auto.
Qed.

Lemma save_exchange_appends (db : Database) (thread q answer : string) :
  thread <> EmptyString -> q <> EmptyString -> answer <> EmptyString ->
  unavailable db chat_history_coll = false ->
  exists t1 t2,
    chat_history (save_exchange db thread q answer) =
      (chat_history db ++ [t1; t2])%list /\
    msg_role t1 = "user" /\ msg_content t1 = q /\ msg_session_id t1 = thread /\
    msg_role t2 = "assistant" /\ msg_content t2 = answer /\
    msg_session_id t2 = thread.
Proof.
  intros Ht Hq Ha Hup. unfold save_exchange.
  destruct (save_message_appends db thread q "user" Ht Hq) as (H1 & Hun1);
    [simpl; auto | exact Hup |].
  destruct (save_message_appends (snd (save_message db thread q "user"))
              thread answer "assistant" Ht Ha) as (H2 & _);
    [simpl; auto | rewrite Hun1; exact Hup |].
  eexists. eexists. split.
  - rewrite H2, H1, <- app_assoc. reflexivity.
  - repeat split.
Qed.

(** C2 as stated fails: for the empty query the user turn is rejected
    by [save_message], so the history does not grow by two turns. *)
Lemma empty_query_saves_one_turn :
  ~ (exists t1 t2,
        chat_history
          (snd (fst (@rag_query sample_world (mkRAGPipeline None)
                       (mkDocumentProcessor None) empty_db EmptyString "thread-1")))
        = (chat_history empty_db ++ [t1; t2])%list).
Proof.
  intros (t1 & t2 & Heq). vm_compute in Heq. discriminate Heq.
Qed.

(** C2, amended. For a non-empty query and a non-empty session
    identifier, while the [chat_history] collection accepts writes, every
    path of [query] (no index, no workflow, a result of the graph, an
    exception of the graph) appends exactly two turns to the history:
    the user turn with the original query, then the assistant turn with
    the answer that is returned. *)
Theorem query_appends_user_then_assistant `{Capabilities}
    (p : RAGPipeline) (dp : DocumentProcessor) (db : Database)
    (user_query thread : string) :
  user_query <> EmptyString ->
  thread <> EmptyString ->
  unavailable db chat_history_coll = false ->
  exists t1 t2,
    chat_history (snd (fst (rag_query p dp db user_query thread))) =
      (chat_history db ++ [t1; t2])%list /\
    msg_role t1 = "user" /\ msg_content t1 = user_query /\
    msg_session_id t1 = thread /\
    msg_role t2 = "assistant" /\
    msg_content t2 = fst (fst (fst (rag_query p dp db user_query thread))) /\
    msg_session_id t2 = thread.
Proof.
  intros Hq Ht Hup. unfold rag_query.
  destruct (vector_store dp) as [vs|].
  2:{ simpl. apply save_exchange_appends; auto. discriminate. }
  destruct (match graph p with Some _ => p | None => update_workflow p dp end)
    as [[g|]].
  2:{ simpl. apply save_exchange_appends; auto. discriminate. }
  simpl graph. cbv iota.
  destruct (g (Some vs) _) as [[result | e] ev]; simpl.
  - apply save_exchange_appends; auto.
    destruct (final_answer result) as [| c r] eqn:Efa; simpl; [discriminate|].
    destruct (String.eqb (strip (String c r)) EmptyString); discriminate.
  - apply save_exchange_appends; auto. discriminate.
Qed.

Lemma query_appends_user_then_assistant_witness :
  exists t1 t2,
    chat_history
      (snd (fst (@rag_query sample_world (mkRAGPipeline None)
                   (mkDocumentProcessor (Some [])) empty_db
                   "What is the revenue?" "thread-1"))) = [t1; t2] /\
    msg_role t1 = "user" /\ msg_role t2 = "assistant" /\
    msg_content t2 = "An answer.".
Proof.
  destruct (@query_appends_user_then_assistant sample_world (mkRAGPipeline None)
              (mkDocumentProcessor (Some [])) empty_db
              "What is the revenue?" "thread-1")
    as (t1 & t2 & Hh & Hr1 & _ & _ & Hr2 & Hc2 & _);
    [discriminate | discriminate | reflexivity |].
  exists t1, t2. repeat split; assumption.
Defined.

(** ** The prompt built by [query] *)

Lemma prefix_spec (k s : string) :
  String.prefix k s = true <-> exists post, s = k ++ post.
Proof.
  revert s. induction k as [| c k IH]; intros s.
  - destruct s; simpl; (split; [intros _; eexists; reflexivity | reflexivity]).
  - destruct s as [| c' s]; simpl.
    { split; [discriminate | intros (post & Hp); discriminate]. }
    destruct (ascii_dec c c') as [-> | Hne].
    + rewrite IH. split; intros (post & Hp); exists post; congruence.
    + split; [discriminate|]. intros (post & Hp). congruence.
Qed.

Lemma contains_spec (k s : string) :
  contains k s = true <-> exists pre post, s = pre ++ k ++ post.
Proof.
  induction s as [| c s IH]; cbn [contains]; rewrite orb_true_iff, prefix_spec.
  - split.
    + intros [(post & Hp) | Hf]; [|discriminate].
      exists EmptyString, post. exact Hp.
    + intros (pre & post & Hp). left.
      destruct pre; simpl in Hp; [exists post; exact Hp | discriminate].
  - rewrite IH. split.
    + intros [(post & Hp) | (pre & post & Hp)].
      * exists EmptyString, post. exact Hp.
      * exists (String c pre), post. simpl. congruence.
    + intros (pre & post & Hp). destruct pre as [| c' pre]; simpl in Hp.
      * left. exists post. exact Hp.
      * right. exists pre, post. congruence.
Qed.

Lemma insert_by_timestamp_In (m x : ChatTurn) (l : list ChatTurn) :
  In x (insert_by_timestamp m l) <-> x = m \/ In x l.
Proof.
  induction l as [| y r IH]; simpl.
  - intuition congruence.
  - destruct (msg_timestamp m <? msg_timestamp y); simpl; rewrite ?IH;
      intuition congruence.
Qed.

Lemma sort_by_timestamp_In (x : ChatTurn) (l : list ChatTurn) :
  In x (sort_by_timestamp l) <-> In x l.
Proof.
  unfold sort_by_timestamp.
  assert (Hgen : forall acc,
             In x (fold_left (fun a m => insert_by_timestamp m a) l acc) <->
             In x l \/ In x acc).
  { induction l as [| y r IH]; intros acc; simpl; [tauto|].
    rewrite IH, insert_by_timestamp_In. intuition congruence. }
  rewrite Hgen. simpl. tauto.
Qed.

Lemma cursor_limit_pos {A : Type} (n : nat) (l : list A) :
  0 < n -> cursor_limit n l = firstn n l.
Proof.
  destruct n; [lia | reflexivity].
Qed.

Lemma In_cursor_limit {A : Type} (n : nat) (l : list A) (x : A) :
  In x (cursor_limit n l) -> In x l.
Proof.
  destruct n; [auto | apply In_firstn].
Qed.

Lemma load_history_length (db : Database) (sid : string) (limit : nat) :
  0 < limit -> List.length (load_history db sid limit) <= limit.
Proof.
  intros Hpos. unfold load_history.
  destruct (get_collection db chat_history_coll); simpl; [|lia].
  rewrite length_map, cursor_limit_pos by exact Hpos. apply firstn_le_length.
Qed.

Lemma load_history_persisted (db : Database) (sid : string) (limit : nat)
    (m : string * string * nat) :
  In m (load_history db sid limit) ->
  exists t, In t (chat_history db) /\ msg_session_id t = sid /\
            m = (msg_role t, msg_content t, msg_timestamp t).
Proof.
  unfold load_history. destruct (get_collection db chat_history_coll); [|contradiction].
  intros Hin. apply in_map_iff in Hin as (t & Hm & Hin).
  apply In_cursor_limit, sort_by_timestamp_In, filter_In in Hin as [Hin Hs].
  apply String.eqb_eq in Hs. exists t. auto.
Qed.

Lemma history_line_nonempty (m : string * string * nat) :
  history_line m <> EmptyString.
Proof.
  unfold history_line. destruct (capitalize (fst (fst m))); discriminate.
Qed.

Lemma join_nonempty (sep : string) (l : list string) :
  l <> [] -> (forall x, In x l -> x <> EmptyString) -> join sep l <> EmptyString.
Proof.
  destruct l as [| x r]; [congruence|]. intros _ Hall.
  assert (Hx : x <> EmptyString) by (apply Hall; left; reflexivity).
  unfold join; simpl. destruct r; [exact Hx|].
  destruct x; [congruence | discriminate].
Qed.

Lemma history_context_truthy (history : list (string * string * nat)) :
  truthy (history_context history) = true <-> filter history_kept history <> [].
Proof.
  unfold history_context. destruct history as [| m r]; [simpl; split; congruence|].
  rewrite truthy_true_iff. split.
  - intros Hne Hnil. rewrite Hnil in Hne. apply Hne. reflexivity.
  - intros Hkept. apply join_nonempty.
    + intros Hmap. apply map_eq_nil in Hmap. contradiction.
    + intros x Hx. apply in_map_iff in Hx as (m' & <- & _).
      apply history_line_nonempty.
Qed.

Lemma history_kept_label (m : string * string * nat) :
  history_kept m = true ->
  strip (snd (fst m)) <> EmptyString /\
  ((fst (fst m) = "user" /\ history_line m = "User: " ++ snd (fst m)) \/
   (fst (fst m) = "assistant" /\ history_line m = "Assistant: " ++ snd (fst m))).
Proof.
  unfold history_kept, history_line. rewrite andb_true_iff, in_list_In, truthy_true_iff.
  intros [Hrole Hc]. split; [exact Hc|].
  destruct Hrole as [<- | [<- | []]]; [left | right]; split; reflexivity.
Qed.

(** C4 as stated fails: without a cue word and without history the
    prompt is not the raw query; it carries the label [Current Query: ]. *)
Lemma prompt_is_labelled_query :
  history_relevant "hello" = false /\
  load_history empty_db "thread-1" 10 = [] /\
  messages (initial_state "hello" "thread-1" (load_history empty_db "thread-1" 10))
    = [HumanMessage "Current Query: hello"] /\
  prompt_prefix "hello" (load_history empty_db "thread-1" 10) <> "hello".
Proof.
  repeat split. discriminate.
Qed.

(** C4, amended. [query] loads at most 10 turns, all of them persisted
    turns of the session. The cue-word test holds exactly when the
    lower-cased query contains one of the five cue words. When it holds
    and at least one loaded turn has role user or assistant and non-blank
    content, the prompt is the history template around those turns, one
    line each, labelled [User: ] or [Assistant: ], followed by the query;
    otherwise the prompt is [Current Query: ] followed by the raw query.
    That prompt is the first message of the state handed to the graph. *)
Theorem prompt_built_from_history
    (db : Database) (user_query thread : string) :
  let history := load_history db thread 10 in
  let kept := filter history_kept history in
  List.length history <= 10 /\
  (forall m, In m history ->
     exists t, In t (chat_history db) /\ msg_session_id t = thread /\
               m = (msg_role t, msg_content t, msg_timestamp t)) /\
  (history_relevant user_query = true <->
     exists k pre post,
       In k ["earlier"; "previous"; "before"; "last"; "what did you say"] /\
       lower user_query = pre ++ k ++ post) /\
  (forall m, In m kept ->
     strip (snd (fst m)) <> EmptyString /\
     ((fst (fst m) = "user" /\ history_line m = "User: " ++ snd (fst m)) \/
      (fst (fst m) = "assistant" /\
       history_line m = "Assistant: " ++ snd (fst m)))) /\
  (history_relevant user_query = true /\ kept <> [] ->
     prompt_prefix user_query history =
       history_prompt (join nl (map history_line kept)) user_query) /\
  (~ (history_relevant user_query = true /\ kept <> []) ->
     prompt_prefix user_query history = "Current Query: " ++ user_query) /\
  messages (initial_state user_query thread history) =
    [HumanMessage (prompt_prefix user_query history)].
Proof.
  intros history kept. split; [apply load_history_length; lia|].
  split; [intros m; apply load_history_persisted|].
  split.
  { unfold history_relevant. rewrite existsb_exists. split.
    - intros (k & Hk & Hc). apply contains_spec in Hc as (pre & post & Hp).
      exists k, pre, post. auto.
    - intros (k & pre & post & Hk & Hp). exists k. split; [exact Hk|].
      apply contains_spec. eauto. }
  split.
  { intros m Hm. apply filter_In in Hm as [_ Hm]. now apply history_kept_label. }
  split; [|split; [|reflexivity]].
  - intros [Hrel Hkept]. unfold prompt_prefix. rewrite Hrel.
    rewrite (proj2 (history_context_truthy history) Hkept). simpl andb. cbv iota.
    unfold history_context. fold kept.
    destruct history as [| m r]; [exfalso; apply Hkept; reflexivity | reflexivity].
  - intros Hnot. unfold prompt_prefix.
    destruct (history_relevant user_query) eqn:Hrel; [|reflexivity].
    destruct (truthy (history_context history)) eqn:Htr; [|reflexivity].
    exfalso. apply Hnot. split; [reflexivity|].
    now apply history_context_truthy.
Qed.

(** ** Routing after the document search *)

(** C1 as stated fails: when the index query raises, the retrieval tool
    reports an error, yet the web searcher is invoked and the answer is
    the one synthesized from the web results. *)
Lemma error_falls_through_to_web_search :
  startswith (@pdf_retrieval_tool broken_index_world "What is the revenue?" (Some []))
             "Error:" = true /\
  web_search_calls
    (snd (@rag_query broken_index_world (mkRAGPipeline None)
            (mkDocumentProcessor (Some [])) empty_db
            "What is the revenue?" "thread-1")) <> 0 /\
  fst (fst (fst (@rag_query broken_index_world (mkRAGPipeline None)
                   (mkDocumentProcessor (Some [])) empty_db
                   "What is the revenue?" "thread-1")))
    <> no_documents_error.
Proof.
  split; [reflexivity|]. split; vm_compute; discriminate.
Qed.

(** C1, amended. When an index exists and the retrieval tool reports an
    error, the document-search node records no answer and the graph goes
    on to the web-search node: the web searcher is invoked exactly once
    and the graph ends with the answer synthesized from the web results.
    The "no documents uploaded" message, with no external call at all,
    is what [query] returns when the processor holds no index. *)
Theorem retrieval_error_routes_to_web_search `{Capabilities}
    (st : State) (vs : VectorStore) :
  startswith (pdf_retrieval_tool (query st) (Some vs)) "Error:" = true ->
  (exists st' ev,
      run 3 (Some vs) START st = (END, st', ev) /\
      web_search_calls ev = 1 /\
      web_searched st' = true /\ pdf_found_content st' = false /\
      final_answer st' =
        match llm_invoke SYSTEM_PROMPT
                (web_prompt (query st) (tavily_search_tool (query st))) with
        | Ok response => response
        | Raise _ => "Based on web search: " ++ tavily_search_tool (query st)
        end) /\
  (forall p db user_query thread,
      rag_query p (mkDocumentProcessor None) db user_query thread =
        (no_documents_error, p,
         save_exchange db thread user_query no_documents_error, [])).
Proof.
  intros Herr. split; [|reflexivity].
  unfold run, step, pdf_search_node. rewrite Herr, andb_false_r.
  cbn [apply_update set_or upd_pdf_found_content upd_pdf_searched
       upd_web_searched upd_final_answer upd_messages].
  unfold route_after_pdf. cbn [pdf_found_content].
  unfold web_search_node. cbn [query].
  eexists. eexists. split; [reflexivity|].
  repeat split.
Qed.

Lemma retrieval_error_routes_to_web_search_witness :
  exists st' ev,
    @run broken_index_world 3 (Some []) START
      (initial_state "What is the revenue?" "thread-1" []) = (END, st', ev) /\
    web_search_calls ev = 1 /\ final_answer st' = "An answer.".
Proof.
  destruct (@retrieval_error_routes_to_web_search broken_index_world
              (initial_state "What is the revenue?" "thread-1" []) [] eq_refl)
    as ((st' & ev & Hrun & Hweb & _ & _ & Hans) & _).
  exists st', ev. repeat split; assumption.
Defined.

(** ** Ingestion *)

Lemma combine_fst {A B : Type} (l : list A) (l' : list B) :
  List.length l' = List.length l -> map fst (combine l l') = l.
Proof.
  revert l'. induction l as [| x r IH]; intros [| y r'] Hlen; simpl in *;
    try reflexivity; try discriminate.
  f_equal. apply IH. lia.
Qed.

(** C8. When loading, splitting, reading and indexing succeed and the
    [documents] collection then refuses the metadata record, the call
    returns failure with zero chunks, the database is unchanged, and the
    processor keeps the updated index: the index it had before (if any)
    followed by the new chunks. *)
Theorem metadata_failure_keeps_index `{Capabilities}
    (dp : DocumentProcessor) (db : Database)
    (file_path filename session_id : string)
    (docs chunks : list Document) (raw : list byte)
    (embs : list Embedding) (size : nat) :
  endswith (lower file_path) ".pdf" = true ->
  pdf_load file_path = Ok docs -> docs <> [] ->
  split_documents 1000 100 docs = Ok chunks -> chunks <> [] ->
  read_bytes file_path = Ok raw ->
  embed_documents chunks = Ok embs ->
  List.length embs = List.length chunks ->
  getsize file_path = Ok size ->
  unavailable db documents_coll = true ->
  exists vs',
    process_pdf_file dp db file_path filename session_id =
      ((false, "Failed to save document metadata", 0),
       mkDocumentProcessor (Some vs'), db) /\
    fst (save_document_metadata db session_id filename size
           (sha256_hexdigest raw) (List.length chunks)) = false /\
    vs' = (match vector_store dp with
           | None => []
           | Some vs => vs
           end ++ combine chunks embs)%list /\
    map fst vs' = (match vector_store dp with
                   | None => []
                   | Some vs => map fst vs
                   end ++ chunks)%list.
Proof.
  intros Hext Hload Hdocs Hsplit Hchunks Hread Hemb Hlen Hsize Hdown.
  exists (match vector_store dp with None => [] | Some vs => vs end
          ++ combine chunks embs)%list.
  split; [|split; [|split]].
  - unfold process_pdf_file. rewrite Hext, Hload. cbn [negb].
    destruct docs as [| d0 docs']; [congruence|].
    rewrite Hsplit. destruct chunks as [| c0 chunks']; [congruence|].
    rewrite Hread.
    unfold from_documents, add_documents. rewrite Hemb. cbn [bind].
    unfold save_document_metadata, get_collection. rewrite Hdown.
    destruct (vector_store dp); cbn iota; rewrite Hsize; reflexivity.
  - unfold save_document_metadata, get_collection. now rewrite Hdown.
  - reflexivity.
  - rewrite map_app, combine_fst by exact Hlen.
    destruct (vector_store dp); reflexivity.
Qed.

Lemma metadata_failure_keeps_index_witness :
  @process_pdf_file sample_world (mkDocumentProcessor None) documents_down_db
     "report.PDF" "report.PDF" "s1" =
    ((false, "Failed to save document metadata", 0),
     mkDocumentProcessor (Some [(mkDocument "page one", [1%Q])]),
     documents_down_db).
Proof.
  destruct (@metadata_failure_keeps_index sample_world (mkDocumentProcessor None)
              documents_down_db "report.PDF" "report.PDF" "s1"
              [mkDocument "page one"] [mkDocument "page one"]
              pdf_magic [[1%Q]] 4
              eq_refl eq_refl ltac:(discriminate) eq_refl ltac:(discriminate)
              eq_refl eq_refl eq_refl eq_refl eq_refl)
    as (vs' & Hrun & _ & Hvs & _).
  rewrite Hrun, Hvs. reflexivity.
Defined.

(** A successful ingestion appends one metadata record, and its
    fingerprint is the digest of the bytes read from the file. *)
Lemma process_pdf_file_success `{Capabilities}
    (dp dp' : DocumentProcessor) (db db' : Database)
    (file_path filename session_id msg : string) (n : nat) :
  process_pdf_file dp db file_path filename session_id = ((true, msg, n), dp', db') ->
  exists raw record,
    read_bytes file_path = Ok raw /\
    documents db' = (documents db ++ [record])%list /\
    doc_content_hash record = sha256_hexdigest raw /\
    doc_filename record = filename /\ doc_session_id record = session_id.
Proof.
  unfold process_pdf_file.
  destruct (negb (endswith (lower file_path) ".pdf")); [discriminate|].
  destruct (pdf_load file_path) as [[| d0 docs] | e]; try discriminate.
  destruct (split_documents 1000 100 (d0 :: docs)) as [[| c0 chunks] | e];
    try discriminate.
  destruct (read_bytes file_path) as [raw | e]; [|discriminate].
  destruct (match vector_store dp with
            | Some vs => add_documents vs (c0 :: chunks)
            | None => from_documents (c0 :: chunks)
            end) as [vs' | e]; [|discriminate].
  destruct (getsize file_path) as [size | e]; [|discriminate].
  unfold save_document_metadata.
  destruct (get_collection db documents_coll); [|discriminate].
  cbn [utcnow]. intros Heq. inversion Heq; subst.
  exists raw. eexists. split; [reflexivity|]. split; [reflexivity|].
  repeat split.
Qed.

(** C10. Two successful ingestions of files with identical bytes record
    the same content fingerprint, whatever the file names, the sessions,
    the state of the index and the state of the database at each call:
    the fingerprint is the digest of the raw bytes and of nothing else. *)
Theorem fingerprint_depends_on_bytes_only `{Capabilities}
    (dp1 dp1' dp2 dp2' : DocumentProcessor) (db1 db1' db2 db2' : Database)
    (path1 path2 filename1 filename2 session1 session2 msg1 msg2 : string)
    (n1 n2 : nat) (raw : list byte) :
  read_bytes path1 = Ok raw ->
  read_bytes path2 = Ok raw ->
  process_pdf_file dp1 db1 path1 filename1 session1 = ((true, msg1, n1), dp1', db1') ->
  process_pdf_file dp2 db2 path2 filename2 session2 = ((true, msg2, n2), dp2', db2') ->
  exists record1 record2,
    documents db1' = (documents db1 ++ [record1])%list /\
    documents db2' = (documents db2 ++ [record2])%list /\
    doc_content_hash record1 = sha256_hexdigest raw /\
    doc_content_hash record2 = doc_content_hash record1.
Proof.
  intros Hr1 Hr2 Hp1 Hp2.
  destruct (process_pdf_file_success _ _ _ _ _ _ _ _ _ Hp1)
    as (raw1 & rec1 & Hb1 & Hd1 & Hh1 & _).
  destruct (process_pdf_file_success _ _ _ _ _ _ _ _ _ Hp2)
    as (raw2 & rec2 & Hb2 & Hd2 & Hh2 & _).
  assert (raw1 = raw) by congruence. assert (raw2 = raw) by congruence. subst.
  exists rec1, rec2. repeat split; congruence.
Qed.

Lemma fingerprint_depends_on_bytes_only_witness :
  exists record1 record2,
    documents (snd second_ingest) = [record1; record2] /\
    doc_content_hash record2 = doc_content_hash record1.
Proof.
  destruct (@fingerprint_depends_on_bytes_only sample_world
              (mkDocumentProcessor None) (snd (fst first_ingest))
              (snd (fst first_ingest)) (snd (fst second_ingest))
              empty_db (snd first_ingest) (snd first_ingest) (snd second_ingest)
              "report.pdf" "copy.pdf" "report.pdf" "copy.pdf" "s1" "s2"
              (snd (fst (fst (fst first_ingest))))
              (snd (fst (fst (fst second_ingest))))
              (snd (fst (fst first_ingest))) (snd (fst (fst second_ingest)))
              pdf_magic eq_refl eq_refl eq_refl eq_refl)
    as (record1 & record2 & Hd1 & Hd2 & _ & Hsame).
  exists record1, record2. split; [|exact Hsame].
  rewrite Hd2, Hd1. reflexivity.
Defined.

(* ================================================================= *)
(** * Further properties of the code *)

(** ** Outcomes of the retrieval tool *)

Lemma startswith_append (p body : string) : startswith (p ++ body) p = true.
Proof.
  unfold startswith. apply prefix_spec. exists body. reflexivity.
Qed.

(** The three shapes of the tool's output when an index is given. *)
Lemma retrieval_outcome_cases `{Capabilities} (q : string) (vs : VectorStore) :
  (exists body, pdf_retrieval_tool q (Some vs) = "PDF Content: " ++ body) \/
  pdf_retrieval_tool q (Some vs) = NO_RELEVANT_CONTENT \/
  (exists e, pdf_retrieval_tool q (Some vs) =
             "Error: Failed to process PDF retrieval - " ++ e).
Proof.
  unfold pdf_retrieval_tool, pdf_retrieval_body.
  destruct (similarity_search_with_score vs q 3) as [results | e];
    cbn [bind]; [|right; right; eauto].
  destruct results as [| [best_doc best_score] rest]; [right; left; reflexivity|].
  destruct (similarity best_score); cbn [bind]; [|right; right; eauto].
  destruct (relevant_content ((best_doc, best_score) :: rest)) as [[| t ts] | e];
    cbn [bind]; [right; left; reflexivity | left; eauto | right; right; eauto].
Qed.

(** The document-search node sets [pdf_found_content] exactly when the
    tool's output carries the label [PDF Content: ]; the three kinds of
    output (labelled content, the not-found sentinel, an error) exclude
    one another, whatever the text of the chunks. *)
Theorem retrieval_outcome_classified `{Capabilities}
    (st : State) (vs : VectorStore) :
  let r := pdf_retrieval_tool (query st) (Some vs) in
  ((startswith r "PDF Content: " = true /\ r <> NO_RELEVANT_CONTENT /\
    startswith r "Error:" = false)
   \/ (r = NO_RELEVANT_CONTENT /\ startswith r "PDF Content: " = false)
   \/ (startswith r "Error:" = true /\ r <> NO_RELEVANT_CONTENT /\
       startswith r "PDF Content: " = false)) /\
  upd_pdf_found_content (fst (pdf_search_node st (Some vs))) =
    Some (startswith r "PDF Content: ").
Proof.
  intros r. pose proof (retrieval_outcome_cases (query st) vs) as Hcases.
  fold r in Hcases.
  unfold pdf_search_node. fold r.
  destruct Hcases as [(body & Hr) | [Hr | (e & Hr)]]; rewrite Hr.
  - rewrite startswith_append. split; [left | reflexivity].
    repeat split; try reflexivity; simpl; discriminate.
  - split; [right; left; split; reflexivity | reflexivity].
  - split; [right; right | reflexivity].
    repeat split; try reflexivity; simpl; discriminate.
Qed.

(** When the index answers and no division raises, the tool reports the
    not-found sentinel exactly when no hit passes the gate, and labelled
    content exactly when some hit does; the gate is the computed
    comparison of line 30. *)
Theorem not_found_iff_nothing_retained `{Capabilities}
    (q : string) (vs : VectorStore) (results : list (Document * score)) :
  similarity_search_with_score vs q 3 = Ok results ->
  Forall divisor_nonzero results ->
  (pdf_retrieval_tool q (Some vs) = NO_RELEVANT_CONTENT <->
     filter retained results = []) /\
  (startswith (pdf_retrieval_tool q (Some vs)) "PDF Content: " = true <->
     exists p, In p results /\ retained p = true).
Proof.
  intros Hsearch Hok.
  rewrite (pdf_retrieval_tool_output q vs results Hsearch Hok). split.
  - destruct (filter retained results) as [| k ks]; split; intros Heq;
      try reflexivity; discriminate.
  - destruct (filter retained results) as [| k ks] eqn:Ek; split.
    + discriminate.
    + intros (p & Hin & Hp).
      assert (Hf : In p (filter retained results)) by (apply filter_In; auto).
      rewrite Ek in Hf. contradiction.
    + intros _. exists k.
      assert (Hf : In k (filter retained results)) by (rewrite Ek; left; reflexivity).
      apply filter_In in Hf. exact Hf.
    + intros _. apply startswith_append.
Qed.

Lemma not_found_iff_nothing_retained_witness :
  @pdf_retrieval_tool sample_world "revenue?" (Some []) <> NO_RELEVANT_CONTENT.
Proof.
  destruct (@not_found_iff_nothing_retained sample_world "revenue?" []
              sorted_hits eq_refl sorted_hits_nonzero) as ((Hnf & _) & _).
  intros Heq. apply Hnf in Heq. vm_compute in Heq. discriminate Heq.
Defined.

(** ** Outcomes of the web search tool *)

Lemma content_parts_first_three (results : list WebResult) :
  content_parts results = content_parts (firstn 3 results).
Proof.
  unfold content_parts. rewrite firstn_firstn. reflexivity.
Qed.

Lemma content_parts_nil_iff (results : list WebResult) :
  content_parts results = [] <->
  forallb (fun r => negb (has_content r)) (firstn 3 results) = true.
Proof.
  unfold content_parts. rewrite forallb_forall. split.
  - intros Hnil r Hr. apply map_eq_nil in Hnil.
    destruct (has_content r) eqn:Hc; [|reflexivity]. exfalso.
    apply In_nth_error in Hr as (k & Hk).
    assert (Hin : In (1 + k, r)
                    (filter (fun ir => has_content (snd ir))
                            (enumerate 1 (firstn 3 results)))).
    { apply filter_In. split; [|exact Hc]. apply enumerate_In. eauto. }
    rewrite Hnil in Hin. exact Hin.
  - intros Hall.
    destruct (filter _ (enumerate 1 (firstn 3 results))) as [| [i r] rest] eqn:Ef;
      [reflexivity|]. exfalso.
    assert (Hin : In (i, r) (filter (fun ir => has_content (snd ir))
                                    (enumerate 1 (firstn 3 results))))
      by (rewrite Ef; left; reflexivity).
    apply filter_In in Hin as [Hin Hc]. simpl in Hc.
    apply enumerate_In in Hin as (k & _ & Hk). apply nth_error_In in Hk.
    apply Hall in Hk. rewrite Hc in Hk. discriminate.
Qed.

(** Only the first three hits of the web search are ever read: the
    snippets are those of the first three hits, and when these three have
    blank or missing content the tool reports that no relevant web
    content was found, even if a later hit has content. *)
Theorem later_hits_are_ignored `{Capabilities}
    (q : string) (results : list WebResult) :
  tavily_invoke tavily_tool q = Ok (TavilyList results) ->
  results <> [] ->
  content_parts results = content_parts (firstn 3 results) /\
  (forallb (fun r => negb (has_content r)) (firstn 3 results) = true ->
     tavily_search_tool q = "No relevant web content found") /\
  (forallb (fun r => negb (has_content r)) (firstn 3 results) = false ->
     tavily_search_tool q =
       "Web Search Results: " ++
         join (nl ++ nl) (content_parts (firstn 3 results))).
Proof.
  intros Hinvoke Hne. split; [apply content_parts_first_three|].
  unfold tavily_search_tool. rewrite Hinvoke.
  destruct results as [| r0 rest]; [congruence|].
  rewrite <- (content_parts_first_three (r0 :: rest)).
  split; intros Hall.
  - apply content_parts_nil_iff in Hall. rewrite Hall. reflexivity.
  - destruct (content_parts (r0 :: rest)) eqn:Ec; [|reflexivity].
    apply content_parts_nil_iff in Ec. congruence.
Qed.

Lemma later_hits_are_ignored_witness :
  @tavily_search_tool blank_first_world "revenue?" = "No relevant web content found".
Proof.
  destruct (@later_hits_are_ignored blank_first_world "revenue?"
              blank_first_results eq_refl ltac:(discriminate)) as (_ & Hblank & _).
  apply Hblank. reflexivity.
Defined.

(** Without a usable list of hits the tool answers with a fixed
    sentence: a non-list or an empty list gives "No web results found",
    an exception of the client gives an error sentence carrying the
    exception text; in neither case does the tool raise. *)
Theorem web_search_without_hits `{Capabilities} (q : string) :
  (tavily_invoke tavily_tool q = Ok TavilyOther \/
   tavily_invoke tavily_tool q = Ok (TavilyList []) ->
     tavily_search_tool q = "No web results found") /\
  (forall e, tavily_invoke tavily_tool q = Raise e ->
     tavily_search_tool q = "Error: Unable to fetch web results - " ++ e) /\
  (startswith (tavily_search_tool q) "Web Search Results: " = true ->
     exists results r,
       tavily_invoke tavily_tool q = Ok (TavilyList results) /\
       In r (firstn 3 results) /\ has_content r = true).
Proof.
  unfold tavily_search_tool. split; [|split].
  - intros [Hi | Hi]; rewrite Hi; reflexivity.
  - intros e Hi. rewrite Hi. reflexivity.
  - destruct (tavily_invoke tavily_tool q) as [[[| r0 rest] |] | e];
      try (simpl; discriminate).
    destruct (content_parts (r0 :: rest)) as [| part parts] eqn:Ec;
      [simpl; discriminate|].
    intros _. exists (r0 :: rest).
    assert (Hin : In part (content_parts (r0 :: rest)))
      by (rewrite Ec; left; reflexivity).
    unfold content_parts in Hin.
    apply in_map_iff in Hin as ([i r] & _ & Hin).
    apply filter_In in Hin as [Hin Hc]. simpl in Hc.
    apply enumerate_In in Hin as (k & _ & Hk). apply nth_error_In in Hk.
    exists r. auto.
Qed.

(** ** The workflow graph *)

(** The run of the graph from [START], with any fuel of at least 3. *)
Lemma run_from_start `{Capabilities} (k : nat) (vs : option VectorStore) (st : State) :
  run (3 + k) vs START st =
    let st1 := apply_update st (fst (pdf_search_node st vs)) in
    if pdf_found_content st1
    then (END, st1, snd (pdf_search_node st vs))
    else (END, apply_update st1 (fst (web_search_node st1)),
          (snd (pdf_search_node st vs) ++ snd (web_search_node st1))%list).
Proof.
  cbn [Nat.add run step]. cbv zeta.
  destruct (pdf_search_node st vs) as [u ev] eqn:Enode. cbn [fst snd].
  unfold route_after_pdf.
  destruct (pdf_found_content (apply_update st u)) eqn:Efound.
  - destruct k; cbn [run]; rewrite app_nil_r; reflexivity.
  - cbn [run step].
    destruct (web_search_node (apply_update st u)) as [u2 ev2]. cbn [fst snd].
    destruct k; cbn [run]; rewrite !app_nil_r; reflexivity.
Qed.

Lemma run_three `{Capabilities} (vs : option VectorStore) (st : State) :
  run 3 vs START st =
    let st1 := apply_update st (fst (pdf_search_node st vs)) in
    if pdf_found_content st1
    then (END, st1, snd (pdf_search_node st vs))
    else (END, apply_update st1 (fst (web_search_node st1)),
          (snd (pdf_search_node st vs) ++ snd (web_search_node st1))%list).
Proof.
  exact (run_from_start 0 vs st).
Qed.

Lemma pdf_search_node_events `{Capabilities} (st : State) (vs : option VectorStore) :
  web_search_calls (snd (pdf_search_node st vs)) = 0.
Proof.
  unfold pdf_search_node. destruct vs as [vs|]; [|reflexivity].
  destruct (_ && _); reflexivity.
Qed.

Lemma pdf_search_node_update `{Capabilities} (st : State) (vs : option VectorStore) :
  exists found answer,
    fst (pdf_search_node st vs) =
      mkUpdate (Some true) (Some false) (Some answer) (Some found)
               [AIMessage (if found then answer
                           else match vs with
                                | None => no_documents_message
                                | Some _ => "Information not found in PDF, searching web..."
                                end)].
Proof.
  unfold pdf_search_node. destruct vs as [vs|].
  - destruct (_ && _); [exists true | exists false]; eexists; reflexivity.
  - exists false. eexists. reflexivity.
Qed.

(** The graph always ends: from [START] it reaches [END] with 3 units of
    fuel, and more fuel changes nothing. The web searcher is invoked
    exactly when the document search found no content, and then exactly
    once; [web_searched] is set accordingly and [pdf_searched] is always
    set. This holds for every index, and also without one. *)
Theorem graph_ends_and_searches_web_only_on_miss `{Capabilities}
    (k : nat) (vs : option VectorStore) (st : State) :
  exists st' ev,
    run 3 vs START st = (END, st', ev) /\
    run (3 + k) vs START st = (END, st', ev) /\
    pdf_searched st' = true /\
    web_searched st' = negb (pdf_found_content st') /\
    web_search_calls ev = (if pdf_found_content st' then 0 else 1).
Proof.
  rewrite (run_from_start k), run_three.
  cbv zeta.
  destruct (pdf_search_node_update st vs) as (found & answer & Hu).
  pose proof (pdf_search_node_events st vs) as Hev.
  rewrite Hu. cbn [apply_update set_or upd_pdf_found_content upd_pdf_searched
                   upd_web_searched upd_final_answer upd_messages pdf_found_content].
  destruct found.
  - eexists. eexists. repeat split. exact Hev.
  - eexists. eexists. split; [reflexivity|]. split; [reflexivity|].
    repeat split. unfold web_search_calls in *. rewrite filter_app, length_app, Hev.
    reflexivity.
Qed.

(** The graph never touches the query or the thread identifier, and it
    only appends to the message list: one assistant message on the
    grounded path, two (the document node's, then the web node's) on the
    web path. The final answer is the text of the last message. *)
Theorem graph_keeps_query_and_appends_messages `{Capabilities}
    (vs : option VectorStore) (st : State) :
  exists st' ev first_message,
    run 3 vs START st = (END, st', ev) /\
    query st' = query st /\ thread_id st' = thread_id st /\
    messages st' =
      (if pdf_found_content st'
       then messages st ++ [AIMessage (final_answer st')]
       else messages st ++ [AIMessage first_message;
                            AIMessage (final_answer st')])%list.
Proof.
  rewrite run_three. cbv zeta.
  destruct (pdf_search_node_update st vs) as (found & answer & Hu).
  rewrite Hu. cbn [apply_update set_or upd_pdf_found_content upd_pdf_searched
                   upd_web_searched upd_final_answer upd_messages pdf_found_content].
  destruct found.
  - eexists. eexists. exists EmptyString. repeat split.
  - eexists. eexists. eexists. split; [reflexivity|].
    cbn. rewrite <- app_assoc. repeat split.
Qed.

(** On the grounded path the graph makes two external calls, the index
    query and one call of the language model, and never the web search;
    the answer is the model's response, or, when the model raises, the
    retrieved text behind the label [Based on the PDF: ]. *)
Theorem grounded_answer_skips_web_search `{Capabilities}
    (st : State) (vs : VectorStore) :
  startswith (pdf_retrieval_tool (query st) (Some vs)) "PDF Content: " = true ->
  let r := pdf_retrieval_tool (query st) (Some vs) in
  exists st',
    run 3 (Some vs) START st =
      (END, st', [IndexQueried (query st); LLMInvoked (pdf_prompt (query st) r)]) /\
    pdf_found_content st' = true /\ web_searched st' = false /\
    final_answer st' =
      match llm_invoke SYSTEM_PROMPT (pdf_prompt (query st) r) with
      | Ok response => response
      | Raise _ => "Based on the PDF: " ++ r
      end.
Proof.
  intros Hg r.
  pose proof (retrieval_outcome_cases (query st) vs) as Hcases.
  fold r in Hcases, Hg.
  assert (Hgate : negb (String.eqb r NO_RELEVANT_CONTENT)
                  && negb (startswith r "Error:") = true).
  { destruct Hcases as [(body & Hr) | [Hr | (e & Hr)]]; rewrite Hr in *;
      [reflexivity | discriminate Hg | discriminate Hg]. }
  rewrite run_three. cbv zeta.
  unfold pdf_search_node. fold r. rewrite Hgate. cbn [fst snd].
  cbn [apply_update set_or upd_pdf_found_content upd_pdf_searched
       upd_web_searched upd_final_answer upd_messages pdf_found_content].
  eexists. repeat split.
Qed.

Lemma grounded_answer_skips_web_search_witness :
  exists st',
    @run sample_world 3 (Some []) START
      (initial_state "What is the revenue?" "thread-1" []) =
      (END, st',
       [IndexQueried "What is the revenue?";
        LLMInvoked (pdf_prompt "What is the revenue?"
                      (@pdf_retrieval_tool sample_world "What is the revenue?"
                         (Some [])))]) /\
    final_answer st' = "An answer.".
Proof.
  destruct (@grounded_answer_skips_web_search sample_world
              (initial_state "What is the revenue?" "thread-1" []) [] eq_refl)
    as (st' & Hrun & _ & _ & Hans).
  exists st'. split; [exact Hrun | exact Hans].
Defined.

(** Run without an index, the graph does not end on the document node's
    "no documents" message: that node leaves [pdf_found_content] unset,
    so the web searcher is invoked and its answer replaces the message.
    The index is not queried. *)
Theorem graph_without_index_answers_from_web `{Capabilities} (st : State) :
  exists st',
    run 3 None START st =
      (END, st',
       [WebSearched (query st);
        LLMInvoked (web_prompt (query st) (tavily_search_tool (query st)))]) /\
    web_searched st' = true /\
    final_answer st' =
      match llm_invoke SYSTEM_PROMPT
              (web_prompt (query st) (tavily_search_tool (query st))) with
      | Ok response => response
      | Raise _ => "Based on web search: " ++ tavily_search_tool (query st)
      end /\
    messages st' =
      (messages st ++ [AIMessage no_documents_message;
                       AIMessage (final_answer st')])%list.
Proof.
  rewrite run_three. cbv zeta.
  cbn. eexists. split; [reflexivity|]. cbn. rewrite <- ?app_assoc. repeat split.
Qed.

(** ** The query operation *)

Lemma rstrip_head_nonspace (c : ascii) (r : string) :
  is_space c = false -> rstrip (String c r) <> EmptyString.
Proof.
  intros Hc. simpl. destruct (rstrip r); [rewrite Hc|]; discriminate.
Qed.

Lemma strip_head_nonspace (c : ascii) (r : string) :
  is_space c = false -> strip (String c r) <> EmptyString.
Proof.
  intros Hc. unfold strip. simpl lstrip. rewrite Hc.
  now apply rstrip_head_nonspace.
Qed.

(** Whatever the graph held by the pipeline does (answer, blank answer,
    exception), and whatever the state of the index and of the database,
    [query] returns a text that is not blank. *)
Theorem query_answer_is_never_blank `{Capabilities}
    (p : RAGPipeline) (dp : DocumentProcessor) (db : Database)
    (user_query thread : string) :
  strip (fst (fst (fst (rag_query p dp db user_query thread)))) <> EmptyString.
Proof.
  unfold rag_query.
  destruct (vector_store dp) as [vs|]; [|cbn [fst]; vm_compute; discriminate].
  destruct (match graph p with Some _ => p | None => update_workflow p dp end)
    as [[g|]]; [|cbn [fst]; vm_compute; discriminate].
  cbn [graph].
  destruct (g (Some vs) _) as [[result | e] ev]; cbn [fst].
  - destruct (negb (truthy (final_answer result))) eqn:Et; cbn [orb].
    + vm_compute; discriminate.
    + destruct (String.eqb (strip (final_answer result)) EmptyString) eqn:Es.
      * vm_compute; discriminate.
      * now apply String.eqb_neq in Es.
  - apply strip_head_nonspace. reflexivity.
Qed.

(** What the nodes compute depends on the state only through its query. *)
Lemma run_depends_on_query `{Capabilities}
    (vs : option VectorStore) (st1 st2 : State) :
  query st1 = query st2 ->
  final_answer (snd (fst (run 3 vs START st1))) =
    final_answer (snd (fst (run 3 vs START st2))) /\
  snd (run 3 vs START st1) = snd (run 3 vs START st2).
Proof.
  intros Hq. rewrite !run_three. cbv zeta.
  assert (Hnode : pdf_search_node st1 vs = pdf_search_node st2 vs).
  { unfold pdf_search_node. rewrite Hq. reflexivity. }
  rewrite Hnode.
  destruct (pdf_search_node_update st2 vs) as (found & answer & Hu).
  rewrite Hu. cbn [apply_update set_or upd_pdf_found_content upd_pdf_searched
                   upd_web_searched upd_final_answer upd_messages pdf_found_content].
  destruct found; cbn [fst snd final_answer]; [split; reflexivity|].
  unfold web_search_node. cbn [query fst snd apply_update set_or upd_final_answer
                              final_answer]. rewrite Hq. split; reflexivity.
Qed.

(** The conversation history does not reach the answer. With the graph
    built by [create_workflow], the answer of [query] and the external
    calls it makes are the same for every database and every session
    identifier: the prompt that embeds the history is stored in the
    initial state, and the nodes read only the raw query. *)
Theorem history_does_not_influence_answer `{Capabilities}
    (p : RAGPipeline) (dp : DocumentProcessor) (db1 db2 : Database)
    (user_query thread1 thread2 : string) :
  graph p = None \/ graph p = Some create_workflow ->
  fst (fst (fst (rag_query p dp db1 user_query thread1))) =
    fst (fst (fst (rag_query p dp db2 user_query thread2))) /\
  snd (rag_query p dp db1 user_query thread1) =
    snd (rag_query p dp db2 user_query thread2).
Proof.
  intros Hg. unfold rag_query.
  destruct (vector_store dp) as [vs|] eqn:Evs; [|split; reflexivity].
  assert (Hp1 : graph (match graph p with
                       | Some _ => p
                       | None => update_workflow p dp
                       end) = Some create_workflow).
  { destruct Hg as [Hg | Hg]; rewrite Hg; [|exact Hg].
    unfold update_workflow. rewrite Evs. reflexivity. }
  rewrite Hp1. unfold create_workflow.
  destruct (run_depends_on_query (Some vs)
              (initial_state user_query thread1 (load_history db1 thread1 10))
              (initial_state user_query thread2 (load_history db2 thread2 10))
              eq_refl) as [Hans Hev].
  destruct (run 3 (Some vs) START (initial_state user_query thread1 _))
    as [[n1 s1] ev1].
  destruct (run 3 (Some vs) START (initial_state user_query thread2 _))
    as [[n2 s2] ev2].
  cbn [fst snd] in *. rewrite Hans, Hev. split; reflexivity.
Qed.

Lemma history_does_not_influence_answer_witness :
  fst (fst (fst (@rag_query sample_world (mkRAGPipeline None)
                   (mkDocumentProcessor (Some [])) talked_db
                   "What did you say earlier?" "thread-1"))) =
  fst (fst (fst (@rag_query sample_world (mkRAGPipeline None)
                   (mkDocumentProcessor (Some [])) empty_db
                   "What did you say earlier?" "thread-2"))).
Proof.
  apply (@history_does_not_influence_answer sample_world (mkRAGPipeline None)
           (mkDocumentProcessor (Some [])) talked_db empty_db
           "What did you say earlier?" "thread-1" "thread-2").
  left. reflexivity.
Defined.

(** ** Order of the loaded history *)

Lemma insert_by_timestamp_sorted (m : ChatTurn) (l : list ChatTurn) :
  StronglySorted by_timestamp l ->
  StronglySorted by_timestamp (insert_by_timestamp m l).
Proof.
  induction 1 as [| x r Hs IH Hall]; simpl.
  - constructor; constructor.
  - destruct (msg_timestamp m <? msg_timestamp x) eqn:E.
    + apply Nat.ltb_lt in E. constructor; [constructor; assumption|].
      constructor; [unfold by_timestamp; lia|].
      eapply Forall_impl; [|exact Hall]. unfold by_timestamp. intros; lia.
    + apply Nat.ltb_ge in E. constructor; [exact IH|].
      rewrite Forall_forall in *. intros y Hy.
      apply insert_by_timestamp_In in Hy as [-> | Hy]; [exact E | auto].
Qed.

Lemma sort_by_timestamp_sorted (l : list ChatTurn) :
  StronglySorted by_timestamp (sort_by_timestamp l).
Proof.
  unfold sort_by_timestamp.
  assert (Hgen : forall acc, StronglySorted by_timestamp acc ->
             StronglySorted by_timestamp
               (fold_left (fun a m => insert_by_timestamp m a) l acc)).
  { induction l as [| y r IH]; intros acc Hacc; simpl; [exact Hacc|].
    apply IH, insert_by_timestamp_sorted, Hacc. }
  apply Hgen. constructor.
Qed.

Lemma insert_by_timestamp_last (m : ChatTurn) (l : list ChatTurn) :
  Forall (fun x => msg_timestamp x <= msg_timestamp m) l ->
  insert_by_timestamp m l = (l ++ [m])%list.
Proof.
  induction 1 as [| x r Hx _ IH]; simpl; [reflexivity|].
  destruct (msg_timestamp m <? msg_timestamp x) eqn:E.
  - apply Nat.ltb_lt in E. lia.
  - now rewrite IH.
Qed.

Lemma sort_by_timestamp_sorted_id (l : list ChatTurn) :
  StronglySorted by_timestamp l -> sort_by_timestamp l = l.
Proof.
  unfold sort_by_timestamp.
  assert (Hgen : forall acc,
             StronglySorted by_timestamp (acc ++ l) ->
             fold_left (fun a m => insert_by_timestamp m a) l acc = (acc ++ l)%list).
  { induction l as [| y r IH]; intros acc Hs; simpl; [now rewrite app_nil_r|].
    rewrite insert_by_timestamp_last.
    - rewrite IH; rewrite <- app_assoc; [reflexivity | exact Hs].
    - clear IH. induction acc as [| a acc IHa]; [constructor|].
      simpl in Hs. inversion Hs as [| ? ? Hs' Hall]; subst.
      constructor; [|apply IHa; exact Hs'].
      rewrite Forall_forall in Hall. apply Hall, in_or_app. right. left. reflexivity. }
  intros Hs. apply (Hgen []). exact Hs.
Qed.

Lemma StronglySorted_firstn {A : Type} (R : A -> A -> Prop) (n : nat) (l : list A) :
  StronglySorted R l -> StronglySorted R (firstn n l).
Proof.
  intros Hs. revert n. induction Hs as [| x r Hs IH Hall]; intros [| n]; simpl;
    try constructor; auto.
  rewrite Forall_forall in *. intros y Hy. apply Hall. eapply In_firstn, Hy.
Qed.

Lemma insert_by_timestamp_perm (m : ChatTurn) (l : list ChatTurn) :
  Permutation (insert_by_timestamp m l) (m :: l).
Proof.
  induction l as [| x r IH]; simpl; [reflexivity|].
  destruct (msg_timestamp m <? msg_timestamp x); [reflexivity|].
  rewrite IH. apply perm_swap.
Qed.

Lemma sort_by_timestamp_perm (l : list ChatTurn) :
  Permutation (sort_by_timestamp l) l.
Proof.
  unfold sort_by_timestamp.
  assert (Hgen : forall acc,
             Permutation (fold_left (fun a m => insert_by_timestamp m a) l acc)
                         (acc ++ l)).
  { induction l as [| y r IH]; intros acc; simpl; [now rewrite app_nil_r|].
    rewrite IH, insert_by_timestamp_perm. simpl. apply Permutation_middle. }
  apply (Hgen []).
Qed.

Lemma StronglySorted_map {A B : Type} (R : A -> A -> Prop) (R' : B -> B -> Prop)
    (f : A -> B) (l : list A) :
  StronglySorted R l ->
  (forall a b, R a b -> R' (f a) (f b)) ->
  StronglySorted R' (map f l).
Proof.
  intros Hs Hf. induction Hs as [| x r Hs IH Hall]; simpl; constructor; [exact IH|].
  rewrite Forall_forall in *. intros y Hy.
  apply in_map_iff in Hy as (a & <- & Hin). auto.
Qed.

Lemma StronglySorted_cursor_limit {A : Type} (R : A -> A -> Prop) (n : nat)
    (l : list A) :
  StronglySorted R l -> StronglySorted R (cursor_limit n l).
Proof.
  destruct n; [auto | apply StronglySorted_firstn].
Qed.

(** [load_history] returns the turns in order of non-decreasing
    timestamp, whatever the order in which the collection holds them.
    With a positive limit it returns at most [limit] turns; the limit 0
    sets no limit. When the collection answers and the limit is 0 or
    the session has no more than [limit] turns, the result holds each
    turn of the session exactly once. *)
Theorem load_history_is_in_timestamp_order
    (db : Database) (session_id : string) (limit : nat) :
  (0 < limit -> List.length (load_history db session_id limit) <= limit) /\
  StronglySorted (fun a b => snd a <= snd b) (load_history db session_id limit) /\
  (unavailable db chat_history_coll = false ->
   limit = 0 \/ List.length (session_turns db session_id) <= limit ->
   Permutation (load_history db session_id limit)
               (map turn_tuple (session_turns db session_id))).
Proof.
  split; [apply load_history_length|]. unfold load_history, get_collection.
  destruct (unavailable db chat_history_coll); [split; [constructor | discriminate]|].
  fold (session_turns db session_id). split.
  - apply (StronglySorted_map by_timestamp).
    + apply StronglySorted_cursor_limit, sort_by_timestamp_sorted.
    + intros a b Hab. exact Hab.
  - intros _ Hlen. apply Permutation_map.
    destruct limit as [| n]; [apply sort_by_timestamp_perm|].
    cbn [cursor_limit]. rewrite firstn_all2; [apply sort_by_timestamp_perm|].
    rewrite (Permutation_length (sort_by_timestamp_perm _)).
    destruct Hlen as [Hz | Hlen]; [discriminate | exact Hlen].
Qed.

(** ** Sessions *)

Lemma find_app_none {A : Type} (f : A -> bool) (l : list A) (x : A) :
  find f l = None -> f x = true -> find f (l ++ [x]) = Some x.
Proof.
  induction l as [| y r IH]; simpl; intros Hn Hx; [now rewrite Hx|].
  destruct (f y); [discriminate | auto].
Qed.

Lemma has_session_In (db : Database) (sid : string) :
  has_session db sid = true <-> In sid (map sess_session_id (sessions db)).
Proof.
  unfold has_session. rewrite existsb_exists, in_map_iff. split.
  - intros (s & Hs & He). apply String.eqb_eq in He. eauto.
  - intros (s & He & Hs). exists s. split; [exact Hs|]. now apply String.eqb_eq.
Qed.

(** [save_session] and lookup. A successful call stores one record, with
    the given identifier and metadata, that [get_session] then returns;
    it succeeds only for an identifier that had no record. A failed call
    stores nothing. Either way the identifiers stay pairwise distinct and
    the other two collections are untouched. *)
Theorem save_session_round_trip
    (db db' : Database) (session_id : string) (metadata : Metadata) (ok : bool) :
  save_session db session_id metadata = (ok, db') ->
  (ok = true ->
     has_session db session_id = false /\ session_id <> EmptyString /\
     sessions db' = (sessions db ++ [mkSession session_id (clock db) metadata])%list /\
     get_session db' session_id = Some (mkSession session_id (clock db) metadata)) /\
  (ok = false -> sessions db' = sessions db) /\
  (sessions_unique db -> sessions_unique db') /\
  chat_history db' = chat_history db /\ documents db' = documents db.
Proof.
  unfold save_session, get_collection.
  destruct (truthy session_id) eqn:Et; cbn [negb].
  2:{ intros Heq; inversion Heq; subst. repeat split; auto; discriminate. }
  destruct (unavailable db sessions_coll) eqn:Eup.
  { intros Heq; inversion Heq; subst. repeat split; auto; discriminate. }
  cbn [utcnow].
  destruct (has_session _ session_id) eqn:Eh.
  { intros Heq; inversion Heq; subst. repeat split; auto; discriminate. }
  intros Heq; inversion Heq; subst ok db'; clear Heq.
  assert (Eh' : has_session db session_id = false) by exact Eh.
  split; [intros _ | split; [discriminate | split; [|split; reflexivity]]].
  - split; [first [exact Eh' | reflexivity]|]. split; [now apply truthy_true_iff|].
    split; [reflexivity|].
    unfold get_session, get_collection. cbn. rewrite Eup.
    apply find_app_none; [|cbn; apply String.eqb_refl].
    rewrite has_session_find in Eh'. destruct (find _ (sessions db)); congruence.
  - unfold sessions_unique. cbn. rewrite map_app. cbn. intros Hnd.
    apply NoDup_app; [exact Hnd | repeat constructor; simpl; tauto |].
    intros x Hx [<- | []]. apply has_session_In in Hx. congruence.
Qed.

Lemma save_session_round_trip_witness :
  get_session (snd (save_session empty_db "s1" [("origin", "upload")])) "s1" =
    Some (mkSession "s1" 0 [("origin", "upload")]).
Proof.
  destruct (save_session_round_trip empty_db
              (snd (save_session empty_db "s1" [("origin", "upload")]))
              "s1" [("origin", "upload")] true eq_refl) as (Hok & _).
  destruct (Hok eq_refl) as (_ & _ & _ & Hget). exact Hget.
Defined.

(** ** Saving and loading turns *)

Lemma save_session_clock (db : Database) (sid : string) (md : Metadata) :
  clock db <= clock (snd (save_session db sid md)).
Proof.
  unfold save_session.
  destruct (negb (truthy sid)); [simpl; lia|].
  destruct (get_collection db sessions_coll); [|simpl; lia].
  cbn [utcnow]. destruct (has_session _ sid); simpl; lia.
Qed.

(** One call of [save_message], on any input: the history grows by at
    most one turn, which belongs to the given session and carries a
    timestamp not below the former clock; the clock does not go back. *)
Lemma save_message_step (db : Database) (sid msg role : string) :
  exists added,
    chat_history (snd (save_message db sid msg role)) =
      (chat_history db ++ added)%list /\
    List.length added <= 1 /\
    Forall (fun t => msg_session_id t = sid /\ clock db <= msg_timestamp t /\
                     msg_timestamp t < clock (snd (save_message db sid msg role)))
           added /\
    clock db <= clock (snd (save_message db sid msg role)) /\
    unavailable (snd (save_message db sid msg role)) = unavailable db /\
    documents (snd (save_message db sid msg role)) = documents db.
Proof.
  pose proof (save_message_cases db sid msg role) as Hcases. cbv zeta in Hcases.
  pose proof (save_session_frame db sid []) as (Hch & Hdoc & Hun).
  pose proof (save_session_clock db sid []) as Hclk.
  set (db1 := match get_session db sid with
              | Some _ => db
              | None => snd (save_session db sid [])
              end) in *.
  assert (H1 : chat_history db1 = chat_history db /\ documents db1 = documents db /\
               unavailable db1 = unavailable db /\ clock db <= clock db1).
  { subst db1. destruct (get_session db sid); auto. }
  destruct H1 as (Hc1 & Hd1 & Hu1 & Hk1).
  destruct Hcases as [(_ & He) | [(_ & _ & _ & _ & He) | (_ & _ & _ & _ & He)]];
    rewrite He; cbn [snd].
  - exists []. rewrite app_nil_r. repeat split; auto.
  - exists []. rewrite app_nil_r. repeat split; auto.
  - eexists [_]. cbn. rewrite Hc1. split; [reflexivity|].
    repeat split; auto; try lia.
    all: try (constructor; [cbn; repeat split; lia | constructor]).
Qed.

Lemma save_message_keeps_order (db : Database) (sid msg role : string) :
  history_in_order db -> history_in_order (snd (save_message db sid msg role)).
Proof.
  intros [Hs Hb].
  destruct (save_message_step db sid msg role)
    as (added & Hh & Hlen & Hadd & Hclk & _ & _).
  unfold history_in_order. rewrite Hh. split.
  - destruct added as [| t [| t' r]]; [now rewrite app_nil_r | | simpl in Hlen; lia].
    inversion Hadd as [| ? ? (_ & Hlo & _) _]; subst.
    clear - Hs Hb Hlo. induction Hs as [| x l Hs IH Hall]; simpl.
    + constructor; constructor.
    + inversion Hb as [| ? ? Hx Hb']; subst.
      constructor; [apply IH; exact Hb'|].
      apply Forall_app. split; [exact Hall|].
      constructor; [unfold by_timestamp; lia | constructor].
  - apply Forall_app. split.
    + eapply Forall_impl; [|exact Hb]. simpl. intros; lia.
    + eapply Forall_impl; [|exact Hadd]. simpl. intros t (_ & _ & Ht). exact Ht.
Qed.

Lemma load_history_in_order (db : Database) (sid : string) (limit : nat) :
  history_in_order db ->
  unavailable db chat_history_coll = false ->
  load_history db sid limit =
    map turn_tuple (cursor_limit limit (session_turns db sid)).
Proof.
  intros [Hs _] Hup. unfold load_history, get_collection. rewrite Hup.
  fold (session_turns db sid).
  rewrite sort_by_timestamp_sorted_id; [reflexivity|].
  apply StronglySorted_filter. exact Hs.
Qed.

(** When stored order agrees with time, [load_history] with a positive
    limit returns the first [limit] turns of the session: once the
    session holds more, it is the latest turns that are missing, not the
    earliest. With the limit 0, which sets no limit, it returns the
    whole session. *)
Theorem load_history_returns_oldest_turns
    (db : Database) (session_id : string) (limit : nat) :
  history_in_order db ->
  unavailable db chat_history_coll = false ->
  (0 < limit ->
     load_history db session_id limit =
       map turn_tuple (firstn limit (session_turns db session_id))) /\
  (limit = 0 ->
     load_history db session_id limit =
       map turn_tuple (session_turns db session_id)) /\
  (forall older newer,
      0 < limit ->
      session_turns db session_id = (older ++ newer)%list ->
      List.length older = limit ->
      load_history db session_id limit = map turn_tuple older).
Proof.
  intros Hord Hup. rewrite load_history_in_order by assumption.
  split; [intros Hpos; now rewrite cursor_limit_pos|].
  split; [intros ->; reflexivity|].
  intros older newer Hpos Hsplit Hlen. rewrite cursor_limit_pos by exact Hpos.
  rewrite Hsplit, firstn_app, Hlen, Nat.sub_diag, firstn_O, app_nil_r.
  rewrite <- Hlen, firstn_all. reflexivity.
Qed.

Lemma talked_db_in_order : history_in_order talked_db.
Proof.
  split; repeat constructor; unfold by_timestamp; simpl; lia.
Qed.

Lemma load_history_returns_oldest_turns_witness :
  load_history talked_db "thread-1" 1 = [("user", "What did we discuss?", 1)].
Proof.
  destruct (load_history_returns_oldest_turns talked_db "thread-1" 1
              talked_db_in_order eq_refl) as (Hfirst & _).
  rewrite Hfirst by lia. reflexivity.
Defined.

Lemma session_turns_after_save (db : Database) (sid msg role other : string) :
  exists added,
    session_turns (snd (save_message db sid msg role)) other =
      (session_turns db other ++ added)%list /\
    List.length added <= 1 /\ (sid <> other -> added = []).
Proof.
  destruct (save_message_step db sid msg role)
    as (added & Hh & Hlen & Hadd & _).
  exists (filter (fun m => String.eqb (msg_session_id m) other) added).
  unfold session_turns. rewrite Hh, filter_app. split; [reflexivity|]. split.
  - etransitivity; [apply filter_length_le | exact Hlen].
  - intros Hne. destruct added as [| t r]; [reflexivity|].
    destruct r; [|simpl in Hlen; lia].
    inversion Hadd as [| ? ? (Hs & _) _]; subst. simpl.
    destruct (String.eqb_spec (msg_session_id t) other); [contradiction | reflexivity].
Qed.

(** Saving a turn and loading the history. On a store whose order agrees
    with time, a turn that [save_message] accepts shows up as the last
    entry of [load_history] as long as the session held fewer than
    [limit] turns, and always with the limit 0, which sets no limit;
    once the session holds [limit] turns or more, for a positive limit,
    the new turn is stored but [load_history] returns what it returned
    before. *)
Theorem saved_turn_is_loaded_until_limit
    (db : Database) (sid msg role : string) (limit : nat) :
  history_in_order db ->
  unavailable db chat_history_coll = false ->
  sid <> EmptyString -> msg <> EmptyString -> In role valid_roles ->
  history_in_order (snd (save_message db sid msg role)) /\
  (limit = 0 \/ List.length (session_turns db sid) < limit ->
     exists ts,
       load_history (snd (save_message db sid msg role)) sid limit =
         (load_history db sid limit ++ [(role, msg, ts)])%list) /\
  (0 < limit <= List.length (session_turns db sid) ->
     load_history (snd (save_message db sid msg role)) sid limit =
       load_history db sid limit).
Proof.
  intros Hord Hup Hs Hm Hr.
  pose proof (save_message_keeps_order db sid msg role Hord) as Hord'.
  destruct (save_message_appends db sid msg role Hs Hm Hr Hup) as (Hh & Hun).
  assert (Hup' : unavailable (snd (save_message db sid msg role)) chat_history_coll
                 = false) by (rewrite Hun; exact Hup).
  split; [exact Hord'|].
  rewrite !load_history_in_order by assumption.
  assert (Hturns : session_turns (snd (save_message db sid msg role)) sid =
                   (session_turns db sid ++
                    [mkChatTurn sid msg role
                       (clock (snd (save_message db sid msg role)) - 1) []])%list).
  { unfold session_turns. rewrite Hh, filter_app. simpl.
    rewrite String.eqb_refl. reflexivity. }
  rewrite Hturns. split.
  - intros Hlen. exists (clock (snd (save_message db sid msg role)) - 1).
    destruct limit as [| n]; [cbn [cursor_limit]; rewrite map_app; reflexivity|].
    destruct Hlen as [Hz | Hlen]; [discriminate|].
    cbn [cursor_limit]. rewrite firstn_app.
    rewrite (firstn_all2 (session_turns db sid)) by lia.
    destruct (S n - List.length (session_turns db sid)) as [| k] eqn:E; [lia|].
    rewrite firstn_cons, firstn_nil, map_app. reflexivity.
  - intros [Hpos Hlen]. rewrite !cursor_limit_pos by exact Hpos.
    rewrite firstn_app.
    replace (limit - List.length (session_turns db sid)) with 0 by lia.
    rewrite firstn_O, app_nil_r. reflexivity.
Qed.

Lemma saved_turn_is_loaded_until_limit_witness :
  load_history (snd (save_message talked_db "thread-1" "And costs?" "user"))
               "thread-1" 2 =
    load_history talked_db "thread-1" 2.
Proof.
  destruct (saved_turn_is_loaded_until_limit talked_db "thread-1" "And costs?"
              "user" 2 talked_db_in_order eq_refl
              ltac:(discriminate) ltac:(discriminate)
              ltac:(simpl; auto)) as (_ & _ & Hfull).
  apply Hfull. vm_compute. lia.
Defined.

(** ** What a query does to the store *)

Lemma rag_query_db `{Capabilities}
    (p : RAGPipeline) (dp : DocumentProcessor) (db : Database)
    (user_query thread : string) :
  snd (fst (rag_query p dp db user_query thread)) =
    save_exchange db thread user_query
      (fst (fst (fst (rag_query p dp db user_query thread)))).
Proof.
  unfold rag_query.
  destruct (vector_store dp); [|reflexivity].
  destruct (graph (match graph p with Some _ => p | None => update_workflow p dp end));
    [|reflexivity].
  destruct (c _ _) as [[result | e] ev]; reflexivity.
Qed.

Lemma save_exchange_step (db : Database) (thread q answer other : string) :
  exists added,
    session_turns (save_exchange db thread q answer) other =
      (session_turns db other ++ added)%list /\
    (thread <> other -> added = []) /\
    unavailable (save_exchange db thread q answer) = unavailable db /\
    documents (save_exchange db thread q answer) = documents db /\
    (history_in_order db -> history_in_order (save_exchange db thread q answer)).
Proof.
  unfold save_exchange.
  set (db1 := snd (save_message db thread q "user")).
  destruct (session_turns_after_save db thread q "user" other) as (a1 & H1 & _ & N1).
  destruct (session_turns_after_save db1 thread answer "assistant" other)
    as (a2 & H2 & _ & N2).
  destruct (save_message_step db thread q "user") as (_ & _ & _ & _ & _ & U1 & D1).
  destruct (save_message_step db1 thread answer "assistant")
    as (_ & _ & _ & _ & _ & U2 & D2).
  fold db1 in H1, U1, D1.
  exists (a1 ++ a2)%list. split; [|split; [|split; [|split]]].
  - rewrite H2, H1, app_assoc. reflexivity.
  - intros Hne. rewrite (N1 Hne), (N2 Hne). reflexivity.
  - congruence.
  - congruence.
  - intros Hord. apply save_message_keeps_order. subst db1.
    apply save_message_keeps_order. exact Hord.
Qed.

(** A query on one session leaves the history of every other session as
    it was, for every limit, and never writes to the [documents]
    collection; it keeps stored order in agreement with time. *)
Theorem query_leaves_other_sessions_alone `{Capabilities}
    (p : RAGPipeline) (dp : DocumentProcessor) (db : Database)
    (user_query thread other : string) (limit : nat) :
  thread <> other ->
  load_history (snd (fst (rag_query p dp db user_query thread))) other limit =
    load_history db other limit /\
  documents (snd (fst (rag_query p dp db user_query thread))) = documents db /\
  (history_in_order db ->
     history_in_order (snd (fst (rag_query p dp db user_query thread)))).
Proof.
  intros Hne. rewrite rag_query_db.
  destruct (save_exchange_step db thread user_query
              (fst (fst (fst (rag_query p dp db user_query thread)))) other)
    as (added & Hturns & Hnil & Hun & Hdoc & Hord).
  split; [|split; assumption].
  unfold load_history, get_collection. rewrite Hun.
  destruct (unavailable db chat_history_coll); [reflexivity|].
  fold (session_turns (save_exchange db thread user_query
                         (fst (fst (fst (rag_query p dp db user_query thread)))))
                      other).
  fold (session_turns db other).
  rewrite Hturns, (Hnil Hne), app_nil_r. reflexivity.
Qed.

Lemma query_leaves_other_sessions_alone_witness :
  load_history
    (snd (fst (@rag_query sample_world (mkRAGPipeline None)
                 (mkDocumentProcessor (Some [])) talked_db
                 "What is the revenue?" "thread-2")))
    "thread-1" 50 =
  load_history talked_db "thread-1" 50.
Proof.
  apply (@query_leaves_other_sessions_alone sample_world (mkRAGPipeline None)
           (mkDocumentProcessor (Some [])) talked_db
           "What is the revenue?" "thread-2" "thread-1" 50).
  discriminate.
Defined.

(** The history that [query] reads stops growing. On a store whose
    order agrees with time, once a session holds ten turns or more, a
    query appends its exchange but the ten turns that the next query
    loads are the same as before. *)
Theorem loaded_history_is_frozen_after_ten_turns `{Capabilities}
    (p : RAGPipeline) (dp : DocumentProcessor) (db : Database)
    (user_query thread : string) :
  history_in_order db ->
  10 <= List.length (session_turns db thread) ->
  load_history (snd (fst (rag_query p dp db user_query thread))) thread 10 =
    load_history db thread 10.
Proof.
  intros Hord Hlen. rewrite rag_query_db.
  destruct (save_exchange_step db thread user_query
              (fst (fst (fst (rag_query p dp db user_query thread)))) thread)
    as (added & Hturns & _ & Hun & _ & Hord').
  destruct (unavailable db chat_history_coll) eqn:Eup.
  - unfold load_history, get_collection. rewrite Hun, Eup. reflexivity.
  - rewrite !load_history_in_order; auto; [|rewrite Hun; exact Eup].
    cbn [cursor_limit]. rewrite Hturns, firstn_app.
    replace (10 - List.length (session_turns db thread)) with 0 by lia.
    rewrite firstn_O, app_nil_r. reflexivity.
Qed.

Lemma long_db_in_order : history_in_order long_db.
Proof.
  unfold long_db. generalize 10. intros n. induction n as [| n IH].
  - split; constructor.
  - simpl. apply save_message_keeps_order. exact IH.
Qed.

Lemma loaded_history_is_frozen_after_ten_turns_witness :
  load_history
    (snd (fst (@rag_query sample_world (mkRAGPipeline None)
                 (mkDocumentProcessor (Some [])) long_db
                 "What did you say earlier?" "thread-1")))
    "thread-1" 10 =
  load_history long_db "thread-1" 10.
Proof.
  apply (@loaded_history_is_frozen_after_ten_turns sample_world (mkRAGPipeline None)
           (mkDocumentProcessor (Some [])) long_db
           "What did you say earlier?" "thread-1" long_db_in_order).
  vm_compute. lia.
Defined.

(** ** Ingestion: the index and the metadata *)

Lemma length_append (a b : string) :
  String.length (a ++ b) = String.length a + String.length b.
Proof.
  induction a as [| c a IH]; simpl; [reflexivity | now rewrite IH].
Qed.

Lemma endswith_spec (s suffix : string) :
  endswith s suffix = true <-> exists pre, s = pre ++ suffix.
Proof.
  unfold endswith. rewrite andb_true_iff, Nat.leb_le, String.eqb_eq. split.
  - intros [Hlen Hsub].
    assert (Hgen : forall t n, String.length t = n + String.length suffix ->
               String.substring n (String.length suffix) t = suffix ->
               exists pre, t = pre ++ suffix).
    { intros t n. revert t. induction n as [| n IH]; intros t Ht Hs.
      - exists EmptyString. simpl. rewrite <- Hs. simpl in Ht.
        clear - Ht. revert suffix Ht. induction t as [| c t IHt]; intros [| c' u] Ht;
          simpl in *; try reflexivity; try discriminate.
        f_equal. apply IHt. lia.
      - destruct t as [| c t]; [simpl in Ht; lia|].
        simpl in Ht, Hs. destruct (IH t) as (pre & Hp); [lia | exact Hs |].
        exists (String c pre). simpl. congruence. }
    apply (Hgen s (String.length s - String.length suffix)); [lia | exact Hsub].
  - intros (pre & ->). rewrite length_append. split; [lia|].
    replace (String.length pre + String.length suffix - String.length suffix)
      with (String.length pre) by lia.
    clear. induction pre as [| c pre IH]; simpl; [|exact IH].
    induction suffix as [| c u IHu]; simpl; [reflexivity | now rewrite IHu].
Qed.

(** Every way [process_pdf_file] can end, read off its branches. *)
Lemma process_pdf_file_index `{Capabilities}
    (dp : DocumentProcessor) (db : Database)
    (file_path filename session_id : string) :
  let out := process_pdf_file dp db file_path filename session_id in
  exists added,
    indexed (snd (fst out)) = (indexed dp ++ added)%list /\
    (vector_store dp <> None -> vector_store (snd (fst out)) <> None) /\
    (fst (fst (fst (fst out))) = false ->
       snd out = db /\ snd (fst (fst out)) = 0) /\
    (endswith (lower file_path) ".pdf" = false ->
       out = ((false, "Only PDF files are supported", 0), dp, db)).
Proof.
  cbv zeta. unfold process_pdf_file.
  destruct (endswith (lower file_path) ".pdf"); cbn [negb].
  2:{ exists []. rewrite app_nil_r. repeat split; auto. }
  destruct (pdf_load file_path) as [[| d0 docs] | e];
    try (exists []; rewrite app_nil_r; repeat split; auto; discriminate).
  destruct (split_documents 1000 100 (d0 :: docs)) as [[| c0 chunks] | e];
    try (exists []; rewrite app_nil_r; repeat split; auto; discriminate).
  destruct (read_bytes file_path) as [raw | e];
    try (exists []; rewrite app_nil_r; repeat split; auto; discriminate).
  assert (Hupd : (exists e,
                     match vector_store dp with
                     | Some vs => add_documents vs (c0 :: chunks)
                     | None => from_documents (c0 :: chunks)
                     end = Raise e) \/
                 (exists embs,
                     match vector_store dp with
                     | Some vs => add_documents vs (c0 :: chunks)
                     | None => from_documents (c0 :: chunks)
                     end = Ok (indexed dp ++ combine (c0 :: chunks) embs)%list)).
  { unfold indexed, add_documents, from_documents.
    destruct (embed_documents (c0 :: chunks)) as [embs | e];
      destruct (vector_store dp); cbn [bind];
      first [right; exists embs; reflexivity | left; exists e; reflexivity]. }
  destruct Hupd as [(e & He) | (embs & He)]; rewrite He.
  { exists []. rewrite app_nil_r. repeat split; auto; discriminate. }
  exists (combine (c0 :: chunks) embs).
  destruct (getsize file_path) as [size | e];
    [|repeat split; auto; discriminate].
  destruct (save_document_metadata db session_id filename size _ _) as [[|] db'] eqn:Es;
    repeat split; auto; try discriminate.
  unfold save_document_metadata in Es.
  destruct (get_collection db documents_coll); inversion Es; reflexivity.
Qed.

(** Ingestion only ever extends the index: after any call, successful or
    not, the index holds its former entries, in order, followed by what
    the call added; an index that exists is never dropped. A file whose
    lower-cased path does not end in [.pdf] is refused without touching
    the index or the database. *)
Theorem ingestion_only_extends_index `{Capabilities}
    (dp : DocumentProcessor) (db : Database)
    (file_path filename session_id : string) :
  (exists added,
      indexed (snd (fst (process_pdf_file dp db file_path filename session_id))) =
        (indexed dp ++ added)%list) /\
  (vector_store dp <> None ->
     vector_store (snd (fst (process_pdf_file dp db file_path filename session_id)))
       <> None) /\
  ((forall pre, lower file_path <> pre ++ ".pdf") ->
     process_pdf_file dp db file_path filename session_id =
       ((false, "Only PDF files are supported", 0), dp, db)).
Proof.
  destruct (process_pdf_file_index dp db file_path filename session_id)
    as (added & Hidx & Hkeep & _ & Hext).
  split; [eauto|]. split; [exact Hkeep|].
  intros Hno. apply Hext.
  destruct (endswith (lower file_path) ".pdf") eqn:E; [|reflexivity].
  exfalso. apply endswith_spec in E as (pre & Hp). exact (Hno pre Hp).
Qed.

(** A failed ingestion records nothing: whenever [process_pdf_file]
    returns failure, the database is exactly as before and the reported
    chunk count is 0, even when the index has already been extended. *)
Theorem failed_ingestion_writes_no_metadata `{Capabilities}
    (dp dp' : DocumentProcessor) (db db' : Database)
    (file_path filename session_id msg : string) (n : nat) :
  process_pdf_file dp db file_path filename session_id = ((false, msg, n), dp', db') ->
  db' = db /\ n = 0.
Proof.
  intros Hrun.
  destruct (process_pdf_file_index dp db file_path filename session_id)
    as (_ & _ & _ & Hfail & _).
  rewrite Hrun in Hfail. cbn [fst snd] in Hfail. now apply Hfail.
Qed.

Lemma failed_ingestion_writes_no_metadata_witness :
  snd (@process_pdf_file sample_world (mkDocumentProcessor None) empty_db
         "notes.txt" "notes.txt" "s1") = empty_db.
Proof.
  apply (@failed_ingestion_writes_no_metadata sample_world
           (mkDocumentProcessor None)
           (snd (fst (@process_pdf_file sample_world (mkDocumentProcessor None)
                        empty_db "notes.txt" "notes.txt" "s1")))
           empty_db
           (snd (@process_pdf_file sample_world (mkDocumentProcessor None)
                   empty_db "notes.txt" "notes.txt" "s1"))
           "notes.txt" "notes.txt" "s1" "Only PDF files are supported" 0 eq_refl).
Defined.

(** A successful ingestion is visible in the session's document
    summary: the session gains one record carrying the file name, the
    size of the file, the status [processed] and the reported chunk
    count, which is at least 1; its document count grows by one and its
    chunk total by the reported count; the summaries of other sessions
    do not change; the index exists afterwards. *)
Theorem successful_ingestion_is_recorded `{Capabilities}
    (dp dp' : DocumentProcessor) (db db' : Database)
    (file_path filename session_id msg : string) (n : nat) :
  process_pdf_file dp db file_path filename session_id = ((true, msg, n), dp', db') ->
  (exists record size,
      get_session_documents db' session_id =
        (get_session_documents db session_id ++ [record])%list /\
      getsize file_path = Ok size /\
      record = mkDocumentRecord session_id filename size
                 (doc_content_hash record) n (clock db) "processed") /\
  1 <= n /\
  msg = "Processed " ++ filename ++ " with " ++ str_of_nat n ++ " chunks" /\
  document_count (get_session_document_info db' session_id) =
    S (document_count (get_session_document_info db session_id)) /\
  total_chunks (get_session_document_info db' session_id) =
    total_chunks (get_session_document_info db session_id) + n /\
  (forall other, other <> session_id ->
     get_session_document_info db' other = get_session_document_info db other) /\
  vector_store dp' <> None.
Proof.
  unfold process_pdf_file.
  destruct (negb (endswith (lower file_path) ".pdf")); [discriminate|].
  destruct (pdf_load file_path) as [[| d0 docs] | e]; try discriminate.
  destruct (split_documents 1000 100 (d0 :: docs)) as [[| c0 chunks] | e];
    try discriminate.
  destruct (read_bytes file_path) as [raw | e]; [|discriminate].
  destruct (match vector_store dp with
            | Some vs => add_documents vs (c0 :: chunks)
            | None => from_documents (c0 :: chunks)
            end) as [vs' | e]; [|discriminate].
  destruct (getsize file_path) as [size | e]; [|discriminate].
  unfold save_document_metadata, get_collection.
  destruct (unavailable db documents_coll) eqn:Eup; [discriminate|].
  cbn [utcnow]. intros Heq. inversion Heq; subst. clear Heq.
  assert (Hdocs : forall sid,
             get_session_documents
               (set_documents
                  (mkDatabase (sessions db) (chat_history db) (documents db)
                              (S (clock db)) (unavailable db))
                  (documents db ++
                   [mkDocumentRecord session_id filename size (sha256_hexdigest raw)
                      (List.length (c0 :: chunks)) (clock db) "processed"])) sid =
             (get_session_documents db sid ++
              (if String.eqb session_id sid
               then [mkDocumentRecord session_id filename size (sha256_hexdigest raw)
                       (List.length (c0 :: chunks)) (clock db) "processed"]
               else []))%list).
  { intros sid. unfold get_session_documents, get_collection. cbn. rewrite Eup.
    rewrite filter_app. cbn. reflexivity. }
  split; [|split; [simpl; lia | split; [reflexivity|]]].
  - eexists. exists size. rewrite Hdocs, String.eqb_refl.
    split; [reflexivity|]. split; reflexivity.
  - unfold get_session_document_info. cbn [document_count total_chunks].
    rewrite Hdocs, String.eqb_refl.
    split; [rewrite length_app; simpl; lia|].
    split; [rewrite map_app, list_sum_app; simpl; lia|].
    split; [|discriminate].
    intros other Hne. rewrite Hdocs.
    destruct (String.eqb_spec session_id other); [congruence|].
    rewrite app_nil_r. reflexivity.
Qed.

Lemma successful_ingestion_is_recorded_witness :
  document_count (get_session_document_info (snd first_ingest) "s1") = 1 /\
  total_chunks (get_session_document_info (snd first_ingest) "s1") = 1.
Proof.
  destruct (@successful_ingestion_is_recorded sample_world
              (mkDocumentProcessor None) (snd (fst first_ingest))
              empty_db (snd first_ingest) "report.pdf" "report.pdf" "s1"
              (snd (fst (fst (fst first_ingest)))) (snd (fst (fst first_ingest)))
              eq_refl) as (_ & _ & _ & Hcount & Hchunks & _).
  split; [exact Hcount | exact Hchunks].
Defined.

(** ** Session summaries *)

Lemma turns_of_snoc (sid : string) (l : list ChatTurn) (m : ChatTurn) :
  turns_of sid (l ++ [m]) =
    (turns_of sid l ++ if String.eqb (msg_session_id m) sid then [m] else [])%list.
Proof.
  unfold turns_of. rewrite filter_app. simpl.
  destruct (String.eqb (msg_session_id m) sid); reflexivity.
Qed.

Lemma last_timestamp_snoc (l : list ChatTurn) (m : ChatTurn) :
  last_timestamp (l ++ [m]) = msg_timestamp m.
Proof.
  unfold last_timestamp. rewrite fold_left_app. reflexivity.
Qed.

Lemma first_content_snoc (l : list ChatTurn) (m : ChatTurn) :
  l <> [] -> first_content (l ++ [m]) = first_content l.
Proof.
  destruct l; [congruence | reflexivity].
Qed.

Lemma add_to_groups_ids (m : ChatTurn) (groups : list SessionGroup) :
  map grp_id (add_to_groups m groups) =
    if in_list (msg_session_id m) (map grp_id groups)
    then map grp_id groups
    else (map grp_id groups ++ [msg_session_id m])%list.
Proof.
  unfold in_list. induction groups as [| g rest IH]; simpl; [reflexivity|].
  rewrite (String.eqb_sym (msg_session_id m) (grp_id g)).
  destruct (String.eqb (grp_id g) (msg_session_id m)); simpl; [reflexivity|].
  rewrite IH. destruct (existsb _ _); reflexivity.
Qed.

Lemma add_to_groups_In (m : ChatTurn) (groups : list SessionGroup) (g' : SessionGroup) :
  NoDup (map grp_id groups) ->
  In g' (add_to_groups m groups) ->
  (In g' groups /\ grp_id g' <> msg_session_id m) \/
  (exists g, In g groups /\ grp_id g = msg_session_id m /\
             g' = mkSessionGroup (grp_id g) (msg_timestamp m)
                    (S (grp_message_count g)) (grp_first_message g)) \/
  (~ In (msg_session_id m) (map grp_id groups) /\
   g' = mkSessionGroup (msg_session_id m) (msg_timestamp m) 1 (msg_content m)).
Proof.
  induction groups as [| g rest IH]; simpl; intros Hnd Hin.
  - destruct Hin as [<- | []]. right; right. split; [tauto | reflexivity].
  - inversion Hnd as [| ? ? Hnotin Hnd']; subst.
    destruct (String.eqb_spec (grp_id g) (msg_session_id m)) as [Heq | Hne].
    + destruct Hin as [<- | Hin].
      * right; left. exists g. auto.
      * left. split; [auto|]. intros Hid. apply Hnotin. rewrite Heq, <- Hid.
        now apply in_map.
    + destruct Hin as [<- | Hin]; [left; auto|].
      destruct (IH Hnd' Hin) as [[H1 H2] | [(g0 & H1 & H2 & H3) | [H1 H2]]].
      * left. auto.
      * right; left. exists g0. auto.
      * right; right. split; [|exact H2]. intros [Hg | Hr]; [congruence | auto].
Qed.

Lemma add_to_groups_describe (l : list ChatTurn) (m : ChatTurn)
    (groups : list SessionGroup) :
  groups_describe l groups ->
  groups_describe (l ++ [m]) (add_to_groups m groups).
Proof.
  intros (Hnd & Hg & Hcov). split; [|split].
  - rewrite add_to_groups_ids.
    destruct (in_list _ _) eqn:Ein; [exact Hnd|].
    apply NoDup_app; [exact Hnd | repeat constructor; simpl; tauto |].
    intros x Hx [<- | []].
    apply in_list_In in Hx. congruence.
  - intros g' Hin. rewrite turns_of_snoc.
    destruct (add_to_groups_In m groups g' Hnd Hin)
      as [[Hold Hne] | [(g & Hold & Hid & ->) | [Hfresh ->]]].
    + destruct (Hg g' Hold) as (Hne0 & Hc & Hf & Hl).
      destruct (String.eqb_spec (msg_session_id m) (grp_id g')); [congruence|].
      rewrite app_nil_r. auto.
    + destruct (Hg g Hold) as (Hne0 & Hc & Hf & Hl). cbn [grp_id grp_message_count
        grp_first_message grp_last_message].
      rewrite Hid, String.eqb_refl, <- Hid.
      repeat split.
      * intros Happ. apply app_eq_nil in Happ as [_ Hm]. discriminate.
      * rewrite length_app, Hc. simpl. lia.
      * rewrite first_content_snoc by exact Hne0. exact Hf.
      * now rewrite last_timestamp_snoc.
    + cbn [grp_id grp_message_count grp_first_message grp_last_message].
      rewrite String.eqb_refl.
      assert (Hnone : turns_of (msg_session_id m) l = []).
      { unfold turns_of. destruct (filter _ l) as [| t r] eqn:Ef; [reflexivity|].
        exfalso. apply Hfresh.
        assert (Ht : In t (filter (fun m0 => String.eqb (msg_session_id m0)
                                              (msg_session_id m)) l))
          by (rewrite Ef; left; reflexivity).
        apply filter_In in Ht as [Ht Hs]. apply String.eqb_eq in Hs.
        rewrite <- Hs. now apply Hcov. }
      rewrite Hnone. simpl. repeat split. discriminate.
  - intros x Hx. rewrite add_to_groups_ids.
    apply in_app_or in Hx as [Hx | [<- | []]].
    + specialize (Hcov x Hx). destruct (in_list _ _); [exact Hcov|].
      apply in_or_app. left. exact Hcov.
    + destruct (in_list _ _) eqn:Ein; [now apply in_list_In|].
      apply in_or_app. right. left. reflexivity.
Qed.

Lemma group_by_session_describes (l : list ChatTurn) :
  groups_describe l (group_by_session l).
Proof.
  unfold group_by_session.
  assert (Hgen : forall done groups,
             groups_describe done groups ->
             groups_describe (done ++ l)
               (fold_left (fun acc m => add_to_groups m acc) l groups)).
  { induction l as [| m r IH]; intros done groups Hd; simpl.
    - now rewrite app_nil_r.
    - replace (done ++ m :: r)%list with ((done ++ [m]) ++ r)%list
        by (rewrite <- app_assoc; reflexivity).
      apply IH, add_to_groups_describe, Hd. }
  apply (Hgen [] []). split; [constructor|]. split; intros ? [].
Qed.

Lemma insert_by_last_message_In (g x : SessionGroup) (l : list SessionGroup) :
  In x (insert_by_last_message g l) <-> x = g \/ In x l.
Proof.
  induction l as [| y r IH]; simpl.
  - intuition congruence.
  - destruct (grp_last_message y <? grp_last_message g); simpl; rewrite ?IH;
      intuition congruence.
Qed.

Lemma insert_by_last_message_perm (g : SessionGroup) (l : list SessionGroup) :
  Permutation (insert_by_last_message g l) (g :: l).
Proof.
  induction l as [| x r IH]; simpl; [reflexivity|].
  destruct (grp_last_message x <? grp_last_message g); [reflexivity|].
  rewrite IH. apply perm_swap.
Qed.

Lemma insert_by_last_message_sorted (g : SessionGroup) (l : list SessionGroup) :
  StronglySorted by_last_message l ->
  StronglySorted by_last_message (insert_by_last_message g l).
Proof.
  induction 1 as [| x r Hs IH Hall]; simpl.
  - constructor; constructor.
  - destruct (grp_last_message x <? grp_last_message g) eqn:E.
    + apply Nat.ltb_lt in E. constructor; [constructor; assumption|].
      constructor; [unfold by_last_message; lia|].
      eapply Forall_impl; [|exact Hall]. unfold by_last_message. intros; lia.
    + apply Nat.ltb_ge in E. constructor; [exact IH|].
      rewrite Forall_forall in *. intros y Hy.
      apply insert_by_last_message_In in Hy as [-> | Hy]; [exact E | auto].
Qed.

Lemma sort_by_last_message_spec (l : list SessionGroup) :
  Permutation (sort_by_last_message l) l /\
  StronglySorted by_last_message (sort_by_last_message l).
Proof.
  unfold sort_by_last_message.
  assert (Hgen : forall acc, StronglySorted by_last_message acc ->
             Permutation (fold_left (fun a g => insert_by_last_message g a) l acc)
                         (acc ++ l) /\
             StronglySorted by_last_message
               (fold_left (fun a g => insert_by_last_message g a) l acc)).
  { induction l as [| y r IH]; intros acc Hacc; simpl.
    - rewrite app_nil_r. split; [reflexivity | exact Hacc].
    - destruct (IH _ (insert_by_last_message_sorted y acc Hacc)) as [Hp Hs].
      split; [|exact Hs].
      rewrite Hp, insert_by_last_message_perm. simpl. apply Permutation_middle. }
  apply (Hgen []). constructor.
Qed.

Lemma preview_length (s : string) : String.length (preview s) <= 53.
Proof.
  unfold preview. destruct (50 <? String.length s) eqn:E.
  - rewrite length_append. pose proof (take_length 50 s). simpl. lia.
  - apply Nat.ltb_ge in E. lia.
Qed.

Lemma group_by_session_length (l : list ChatTurn) :
  List.length (group_by_session l) <= List.length l.
Proof.
  unfold group_by_session.
  assert (Hgen : forall groups,
             List.length (fold_left (fun acc m => add_to_groups m acc) l groups)
             <= List.length groups + List.length l).
  { induction l as [| m r IH]; intros groups; simpl; [lia|].
    etransitivity; [apply IH|].
    assert (Hone : List.length (add_to_groups m groups) <= S (List.length groups)).
    { rewrite <- (length_map grp_id), add_to_groups_ids.
      destruct (in_list _ _); rewrite ?length_app, length_map; simpl; lia. }
    lia. }
  apply (Hgen []).
Qed.

(** The session summaries. Every summary describes a session that has
    turns: its message count is the number of stored turns of that
    session, its last activity is the timestamp of the session's last
    stored turn, and its preview is the content of the session's first
    stored turn, cut to 50 characters plus an ellipsis when longer (so
    never more than 53 characters). No session is listed twice, the list
    is in order of non-increasing last activity and holds at most
    [limit] entries; when the collection answers and [limit] is at least
    the number of stored turns, every session with a turn is listed. *)
Theorem session_summaries_are_faithful (db : Database) (limit : nat) :
  List.length (get_user_sessions db limit) <= limit /\
  NoDup (map sum_session_id (get_user_sessions db limit)) /\
  StronglySorted (fun a b => sum_last_activity b <= sum_last_activity a)
                 (get_user_sessions db limit) /\
  (forall s, In s (get_user_sessions db limit) ->
     session_turns db (sum_session_id s) <> [] /\
     sum_message_count s = List.length (session_turns db (sum_session_id s)) /\
     sum_last_activity s = last_timestamp (session_turns db (sum_session_id s)) /\
     sum_preview s = preview (first_content (session_turns db (sum_session_id s))) /\
     String.length (sum_preview s) <= 53) /\
  (unavailable db chat_history_coll = false ->
   List.length (chat_history db) <= limit ->
   forall m, In m (chat_history db) ->
     In (msg_session_id m) (map sum_session_id (get_user_sessions db limit))).
Proof.
  unfold get_user_sessions, get_collection.
  destruct (unavailable db chat_history_coll).
  { simpl. repeat split; try constructor; try contradiction; try discriminate; lia. }
  pose proof (group_by_session_describes (chat_history db)) as (Hnd & Hg & Hcov).
  destruct (sort_by_last_message_spec (group_by_session (chat_history db)))
    as [Hperm Hsorted].
  set (sorted := sort_by_last_message (group_by_session (chat_history db))) in *.
  assert (Hids : map sum_session_id (map summary_of (firstn limit sorted)) =
                 firstn limit (map grp_id sorted)).
  { rewrite map_map, firstn_map. reflexivity. }
  split; [rewrite length_map; apply firstn_le_length|].
  split.
  { rewrite Hids.
    assert (Hnd' : NoDup (map grp_id sorted)).
    { eapply Permutation_NoDup; [|exact Hnd].
      apply Permutation_map. symmetry. exact Hperm. }
    rewrite <- (firstn_skipn limit (map grp_id sorted)) in Hnd'.
    eapply NoDup_app_remove_r. exact Hnd'. }
  split.
  { apply (StronglySorted_map by_last_message).
    - apply StronglySorted_firstn. exact Hsorted.
    - intros a b Hab. exact Hab. }
  split.
  { intros s Hs. apply in_map_iff in Hs as (g & <- & Hin).
    apply In_firstn in Hin.
    apply (Permutation_in _ Hperm) in Hin.
    destruct (Hg g Hin) as (Hne & Hc & Hf & Hl).
    unfold session_turns. cbn [summary_of sum_session_id sum_message_count
                              sum_last_activity sum_preview].
    fold (turns_of (grp_id g) (chat_history db)).
    repeat split; auto; [now rewrite Hf | apply preview_length]. }
  intros _ Hlen m Hm. rewrite Hids.
  rewrite firstn_all2.
  - apply (Permutation_in _ (Permutation_map grp_id (Permutation_sym Hperm))).
    now apply Hcov.
  - rewrite length_map, (Permutation_length Hperm).
    etransitivity; [apply group_by_session_length | exact Hlen].
Qed.

Example two_sessions_summaries :
  get_user_sessions two_sessions_db 10 =
    [ mkSessionSummary "thread-2" 4 1
        "A long question about the revenue reported in the ...";
      mkSessionSummary "thread-1" 2 2 "What did we discuss?" ].
Proof. reflexivity. Qed.

(** ** The chat window *)

Lemma rag_query_answer_nonempty `{Capabilities}
    (p : RAGPipeline) (dp : DocumentProcessor) (db : Database)
    (user_query thread : string) :
  fst (fst (fst (rag_query p dp db user_query thread))) <> EmptyString.
Proof.
  unfold rag_query.
  destruct (vector_store dp) as [vs|]; [|discriminate].
  destruct (match graph p with Some _ => p | None => update_workflow p dp end)
    as [[g|]]; [|discriminate].
  cbn [graph].
  destruct (g (Some vs) _) as [[result | e] ev]; cbn [fst]; [|discriminate].
  destruct (final_answer result) as [| c r]; cbn [truthy negb orb]; [discriminate|].
  destruct (String.eqb _ _); discriminate.
Qed.

Lemma strip_nonempty (s : string) : strip s <> EmptyString -> s <> EmptyString.
Proof.
  intros Hs ->. apply Hs. reflexivity.
Qed.

Lemma save_exchange_loaded (db : Database) (thread q answer : string) (limit : nat) :
  history_in_order db ->
  unavailable db chat_history_coll = false ->
  thread <> EmptyString -> q <> EmptyString -> answer <> EmptyString ->
  List.length (session_turns db thread) + 2 <= limit ->
  exists ts1 ts2,
    load_history (save_exchange db thread q answer) thread limit =
      (load_history db thread limit ++
       [("user", q, ts1); ("assistant", answer, ts2)])%list.
Proof.
  intros Hord Hup Ht Hq Ha Hlen. unfold save_exchange.
  set (db1 := snd (save_message db thread q "user")).
  destruct (save_message_appends db thread q "user" Ht Hq) as (H1 & Hun1);
    [simpl; auto | exact Hup |].
  fold db1 in H1, Hun1.
  destruct (save_message_appends db1 thread answer "assistant" Ht Ha) as (H2 & Hun2);
    [simpl; auto | rewrite Hun1; exact Hup |].
  set (db2 := snd (save_message db1 thread answer "assistant")) in *.
  assert (Hord2 : history_in_order db2).
  { subst db2 db1. now do 2 apply save_message_keeps_order. }
  assert (Hturns : session_turns db2 thread =
                   (session_turns db thread ++
                    [mkChatTurn thread q "user" (clock db1 - 1) [];
                     mkChatTurn thread answer "assistant" (clock db2 - 1) []])%list).
  { unfold session_turns. rewrite H2, H1, !filter_app. simpl.
    rewrite String.eqb_refl, <- app_assoc. reflexivity. }
  exists (clock db1 - 1), (clock db2 - 1).
  rewrite !load_history_in_order; auto; [|rewrite Hun2, Hun1; exact Hup].
  rewrite !cursor_limit_pos by lia.
  rewrite Hturns, firstn_all2 by (rewrite length_app; simpl; lia).
  rewrite firstn_all2 by lia. rewrite map_app. reflexivity.
Qed.

(** What the chat window shows is what the store holds. A blank message
    does nothing at all: no query, no external call, no write. For any
    other message, with a non-empty session identifier and a
    [chat_history] collection that accepts writes, the window gains the
    user's message and the answer, and the store gains exactly the same
    two turns, in the same order, under the current session. *)
Theorem chat_window_matches_store `{Capabilities}
    (sid : string) (p : RAGPipeline) (dp : DocumentProcessor) (db : Database)
    (message : string) (history : list UiMessage) :
  sid <> EmptyString ->
  unavailable db chat_history_coll = false ->
  (strip message = EmptyString ->
     chat_response sid p dp db message history = (history, EmptyString, p, db, [])) /\
  (strip message <> EmptyString ->
     exists t1 t2,
       fst (fst (fst (fst (chat_response sid p dp db message history)))) =
         (history ++ [(msg_role t1, msg_content t1);
                      (msg_role t2, msg_content t2)])%list /\
       chat_history (snd (fst (chat_response sid p dp db message history))) =
         (chat_history db ++ [t1; t2])%list /\
       msg_role t1 = "user" /\ msg_content t1 = message /\
       msg_role t2 = "assistant" /\
       msg_content t2 = fst (fst (fst (rag_query p dp db message sid))) /\
       msg_session_id t1 = sid /\ msg_session_id t2 = sid).
Proof.
  intros Hsid Hup. unfold chat_response. split.
  - intros Hblank. rewrite Hblank. reflexivity.
  - intros Hmsg. apply truthy_true_iff in Hmsg as Htr. rewrite Htr. cbn [negb].
    pose proof (rag_query_db p dp db message sid) as Hdb.
    pose proof (rag_query_answer_nonempty p dp db message sid) as Hans.
    destruct (rag_query p dp db message sid) as [[[response p'] db'] ev].
    cbn [fst snd] in *. subst db'.
    destruct (save_exchange_appends db sid message response Hsid
                (strip_nonempty _ Hmsg) Hans Hup)
      as (t1 & t2 & Hh & Hr1 & Hc1 & Hs1 & Hr2 & Hc2 & Hs2).
    exists t1, t2. rewrite Hr1, Hc1, Hr2, Hc2. repeat split; auto.
Qed.

Lemma chat_window_matches_store_witness :
  fst (fst (fst (fst (@chat_response sample_world "thread-1" (mkRAGPipeline None)
                        (mkDocumentProcessor (Some [])) empty_db
                        "What is the revenue?" [])))) =
    [("user", "What is the revenue?"); ("assistant", "An answer.")].
Proof.
  destruct (@chat_window_matches_store sample_world "thread-1" (mkRAGPipeline None)
              (mkDocumentProcessor (Some [])) empty_db "What is the revenue?" []
              ltac:(discriminate) eq_refl) as (_ & Hsay).
  destruct (Hsay ltac:(discriminate))
    as (t1 & t2 & Hwin & _ & Hr1 & Hc1 & Hr2 & Hc2 & _).
  rewrite Hwin, Hr1, Hc1, Hr2, Hc2. reflexivity.
Defined.

(** Reloading a session brings back the conversation. On a store whose
    order agrees with time, for a session that will hold at most 50
    turns after the exchange: chatting from the window that
    [load_session] shows and then loading the session again gives
    exactly the window that the chat showed. *)
Theorem reloading_a_session_shows_the_exchange `{Capabilities}
    (sid other : string) (p : RAGPipeline) (dp : DocumentProcessor) (db : Database)
    (message : string) :
  history_in_order db ->
  unavailable db chat_history_coll = false ->
  strip sid <> EmptyString ->
  strip message <> EmptyString ->
  List.length (session_turns db sid) + 2 <= 50 ->
  let window := fst (fst (load_session other db sid)) in
  let after := chat_response sid p dp db message window in
  fst (fst (load_session other (snd (fst after)) sid)) = fst (fst (fst (fst after))) /\
  snd (load_session other (snd (fst after)) sid) = sid.
Proof.
  intros Hord Hup Hsid Hmsg Hlen. cbv zeta.
  apply truthy_true_iff in Hsid as Hts. apply truthy_true_iff in Hmsg as Htm.
  unfold chat_response, load_session. rewrite Hts, Htm. cbn [negb].
  pose proof (rag_query_db p dp db message sid) as Hdb.
  pose proof (rag_query_answer_nonempty p dp db message sid) as Hans.
  destruct (rag_query p dp db message sid) as [[[response p'] db'] ev].
  cbn [fst snd] in *. subst db'. split; [|reflexivity].
  destruct (save_exchange_loaded db sid message response 50 Hord Hup
              (strip_nonempty _ Hsid) (strip_nonempty _ Hmsg) Hans Hlen)
    as (ts1 & ts2 & Hload).
  rewrite Hload, filter_app, map_app. reflexivity.
Qed.

Lemma reloading_a_session_shows_the_exchange_witness :
  fst (fst (load_session "thread-9"
              (snd (fst (@chat_response sample_world "thread-1" (mkRAGPipeline None)
                           (mkDocumentProcessor (Some [])) talked_db "And the costs?"
                           (fst (fst (load_session "thread-9" talked_db "thread-1"))))))
              "thread-1")) =
    [("user", "What did we discuss?"); ("assistant", "We discussed revenue.");
     ("user", "And the costs?"); ("assistant", "An answer.")].
Proof.
  destruct (@reloading_a_session_shows_the_exchange sample_world "thread-1" "thread-9"
              (mkRAGPipeline None) (mkDocumentProcessor (Some [])) talked_db
              "And the costs?" talked_db_in_order eq_refl
              ltac:(discriminate) ltac:(discriminate) ltac:(vm_compute; lia))
    as (Hsame & _).
  rewrite Hsame. reflexivity.
Defined.

(** What [load_session] shows. A blank identifier shows nothing and
    keeps the current session; any other identifier becomes the current
    session. The window holds at most 50 entries, each with role user or
    assistant and each the role and content of a stored turn of that
    session. *)
Theorem load_session_shows_stored_turns
    (current db_session : string) (db : Database) :
  let out := load_session current db db_session in
  (strip db_session = EmptyString ->
     out = ([], "Please provide a valid session ID", current)) /\
  (strip db_session <> EmptyString -> snd out = db_session) /\
  List.length (fst (fst out)) <= 50 /\
  (forall role text, In (role, text) (fst (fst out)) ->
     (role = "user" \/ role = "assistant") /\
     exists t, In t (chat_history db) /\ msg_session_id t = db_session /\
               msg_role t = role /\ msg_content t = text).
Proof.
  cbv zeta. unfold load_session.
  destruct (truthy (strip db_session)) eqn:Et; cbn [negb fst snd].
  - apply truthy_true_iff in Et. split; [congruence|]. split; [reflexivity|].
    split.
    + rewrite length_map. etransitivity; [apply filter_length_le|].
      apply load_history_length. lia.
    + intros role text Hin. apply in_map_iff in Hin as (m & Hm & Hin).
      apply filter_In in Hin as [Hin Hrole]. inversion Hm; subst. split.
      * apply in_list_In in Hrole. simpl in Hrole.
        destruct Hrole as [<- | [<- | []]]; [left | right]; reflexivity.
      * apply load_history_persisted in Hin as (t & Ht & Hs & ->).
        exists t. auto.
  - split; [reflexivity|]. split.
    + intros Hne. apply truthy_true_iff in Hne. congruence.
    + split; [simpl; lia | intros ? ? []].
Qed.

(** ** Uploading files *)

Lemma session_documents_snoc (db : Database) (record : DocumentRecord) (sid : string) :
  unavailable db documents_coll = false ->
  get_session_documents (set_documents (snd (utcnow db)) (documents db ++ [record])) sid =
    (get_session_documents db sid ++
     if String.eqb (doc_session_id record) sid then [record] else [])%list.
Proof.
  intros Hup. unfold get_session_documents, get_collection. cbn. rewrite Hup.
  rewrite filter_app. cbn. destruct (String.eqb _ _); reflexivity.
Qed.

Lemma process_pdf_file_success_db `{Capabilities}
    (dp dp' : DocumentProcessor) (db db' : Database)
    (file_path filename session_id msg : string) (n : nat) :
  process_pdf_file dp db file_path filename session_id = ((true, msg, n), dp', db') ->
  exists record,
    db' = set_documents (snd (utcnow db)) (documents db ++ [record]) /\
    doc_session_id record = session_id /\ doc_chunk_count record = n /\
    unavailable db documents_coll = false.
Proof.
  unfold process_pdf_file.
  destruct (negb (endswith (lower file_path) ".pdf")); [discriminate|].
  destruct (pdf_load file_path) as [[| d0 docs] | e]; try discriminate.
  destruct (split_documents 1000 100 (d0 :: docs)) as [[| c0 chunks] | e];
    try discriminate.
  destruct (read_bytes file_path) as [raw | e]; [|discriminate].
  destruct (match vector_store dp with
            | Some vs => add_documents vs (c0 :: chunks)
            | None => from_documents (c0 :: chunks)
            end) as [vs' | e]; [|discriminate].
  destruct (getsize file_path) as [size | e]; [|discriminate].
  unfold save_document_metadata, get_collection.
  destruct (unavailable db documents_coll) eqn:Eup; [discriminate|].
  intros Heq. inversion Heq; subst. eexists. repeat split.
Qed.

(** How one call of [process_pdf_file] changes the summaries. *)
Lemma process_pdf_file_accounts `{Capabilities}
    (dp : DocumentProcessor) (db : Database)
    (file_path filename sid : string) :
  let out := process_pdf_file dp db file_path filename sid in
  total_chunks (get_session_document_info (snd out) sid) =
    total_chunks (get_session_document_info db sid) +
    (if fst (fst (fst (fst out))) then snd (fst (fst out)) else 0) /\
  (forall other, other <> sid ->
     get_session_document_info (snd out) other = get_session_document_info db other) /\
  chat_history (snd out) = chat_history db /\
  unavailable (snd out) = unavailable db.
Proof.
  cbv zeta.
  destruct (process_pdf_file dp db file_path filename sid)
    as [[[[ok msg] n] dp'] db'] eqn:Eout. cbn [fst snd].
  destruct ok.
  - destruct (process_pdf_file_success_db _ _ _ _ _ _ _ _ _ Eout)
      as (record & -> & Hs & Hn & Hup).
    split; [|split; [|split; reflexivity]].
    + unfold get_session_document_info. cbn [total_chunks].
      rewrite session_documents_snoc, Hs, String.eqb_refl by exact Hup.
      rewrite map_app, list_sum_app. simpl. lia.
    + intros other Hne. unfold get_session_document_info.
      rewrite session_documents_snoc, Hs by exact Hup.
      destruct (String.eqb_spec sid other); [congruence|].
      rewrite app_nil_r. reflexivity.
  - destruct (process_pdf_file_index dp db file_path filename sid)
      as (_ & _ & _ & Hfail & _).
    rewrite Eout in Hfail. cbn [fst snd] in Hfail.
    destruct (Hfail eq_refl) as [-> _].
    repeat split; auto.
Qed.

Lemma upload_one_accounts `{Capabilities} (path_exists : string -> bool)
    (sid : string) (db0 : Database) (dp0 : DocumentProcessor)
    (acc : list string * nat * DocumentProcessor * Database) (file : option string) :
  let inv (count : nat) (a : list string * nat * DocumentProcessor * Database) :=
    List.length (fst (fst (fst a))) = count /\
    total_chunks (get_session_document_info (snd a) sid) =
      total_chunks (get_session_document_info db0 sid) + snd (fst (fst a)) /\
    (forall other, other <> sid ->
       get_session_document_info (snd a) other = get_session_document_info db0 other) /\
    chat_history (snd a) = chat_history db0 /\
    unavailable (snd a) = unavailable db0 /\
    (exists added, indexed (snd (fst a)) = (indexed dp0 ++ added)%list) in
  forall count, inv count acc -> inv (S count) (upload_one path_exists sid acc file).
Proof.
  cbv zeta. intros count (Hlen & Htot & Hoth & Hch & Hun & (added & Hidx)).
  destruct acc as [[[lines total] dp] db]. cbn [fst snd] in *.
  unfold upload_one.
  destruct file as [file_path|].
  2:{ cbn [fst snd]. rewrite length_app. cbn [List.length].
      repeat split; eauto; lia. }
  destruct (path_exists file_path); cbn [negb].
  2:{ cbn [fst snd]. rewrite length_app. cbn [List.length].
      repeat split; eauto; lia. }
  pose proof (process_pdf_file_accounts dp db file_path (basename file_path) sid)
    as (Ht & Ho & Hc & Hu).
  destruct (process_pdf_file_index dp db file_path (basename file_path) sid)
    as (added' & Hidx' & _).
  destruct (process_pdf_file dp db file_path (basename file_path) sid)
    as [[[[ok msg] n] dp'] db']. cbn [fst snd] in *.
  assert (Hgrow : exists a, indexed dp' = (indexed dp0 ++ a)%list).
  { exists (added ++ added')%list. rewrite Hidx', Hidx, app_assoc. reflexivity. }
  destruct ok; cbv iota in Ht; cbn [fst snd]; rewrite length_app; cbn [List.length];
    (split; [lia|]); (split; [lia|]);
    (split; [intros other Hne; rewrite Ho by exact Hne; auto|]);
    (split; [congruence|]); (split; [congruence | exact Hgrow]).
Qed.

Lemma append_nil_r (s : string) : s ++ EmptyString = s.
Proof.
  induction s as [| c s IH]; simpl; [reflexivity | now rewrite IH].
Qed.

(** An upload accounts for what it records. Over the whole list of
    files, [upload_pdf] produces one status line per file, and the chunk
    total it reports is exactly the growth of the session's chunk total
    in the document summary. The upload writes no chat turn, leaves the
    summaries of other sessions as they were and only extends the index;
    when an index exists afterwards the pipeline holds the workflow. *)
Theorem upload_accounts_for_what_it_records `{Capabilities}
    (path_exists : string -> bool) (sid : string)
    (p : RAGPipeline) (dp : DocumentProcessor) (db : Database)
    (files : list (option string)) :
  files <> [] ->
  let all := upload_all path_exists sid dp db files in
  let out := upload_pdf path_exists sid p dp db files in
  List.length (fst (fst (fst all))) = List.length files /\
  total_chunks (get_session_document_info (snd out) sid) =
    total_chunks (get_session_document_info db sid) + snd (fst (fst all)) /\
  fst (fst (fst (fst out))) =
    join nl (fst (fst (fst all))) ++
    (if 0 <? snd (fst (fst all))
     then nl ++ nl ++ "📊 Total chunks processed: " ++ str_of_nat (snd (fst (fst all)))
     else EmptyString) /\
  (forall other, other <> sid ->
     get_session_document_info (snd out) other = get_session_document_info db other) /\
  chat_history (snd out) = chat_history db /\
  (exists added, indexed (snd (fst out)) = (indexed dp ++ added)%list) /\
  (vector_store (snd (fst out)) <> None ->
     graph (snd (fst (fst out))) = Some create_workflow).
Proof.
  intros Hfiles. cbv zeta.
  assert (Hinv : forall fs acc count,
             (fun c a =>
                List.length (fst (fst (fst a))) = c /\
                total_chunks (get_session_document_info (snd a) sid) =
                  total_chunks (get_session_document_info db sid) + snd (fst (fst a)) /\
                (forall other, other <> sid ->
                   get_session_document_info (snd a) other =
                   get_session_document_info db other) /\
                chat_history (snd a) = chat_history db /\
                unavailable (snd a) = unavailable db /\
                (exists added, indexed (snd (fst a)) = (indexed dp ++ added)%list))
               count acc ->
             (fun c a =>
                List.length (fst (fst (fst a))) = c /\
                total_chunks (get_session_document_info (snd a) sid) =
                  total_chunks (get_session_document_info db sid) + snd (fst (fst a)) /\
                (forall other, other <> sid ->
                   get_session_document_info (snd a) other =
                   get_session_document_info db other) /\
                chat_history (snd a) = chat_history db /\
                unavailable (snd a) = unavailable db /\
                (exists added, indexed (snd (fst a)) = (indexed dp ++ added)%list))
               (count + List.length fs)
               (fold_left (upload_one path_exists sid) fs acc)).
  { induction fs as [| f fs IH]; intros acc count Hacc; simpl.
    - rewrite Nat.add_0_r. exact Hacc.
    - replace (count + S (List.length fs)) with (S count + List.length fs) by lia.
      apply IH. exact (upload_one_accounts path_exists sid db dp acc f count Hacc). }
  specialize (Hinv files ([], 0, dp, db) 0).
  cbn beta in Hinv. cbn [fst snd] in Hinv.
  destruct Hinv as (Hlen & Htot & Hoth & Hch & Hun & Hidx).
  { repeat split; auto. exists []. now rewrite app_nil_r. }
  unfold upload_pdf. destruct files as [| f0 fs]; [congruence|].
  fold (upload_all path_exists sid dp db (f0 :: fs)) in *.
  destruct (upload_all path_exists sid dp db (f0 :: fs)) as [[[lines total] dp'] db'].
  cbn [fst snd] in *.
  split; [exact Hlen|]. split; [exact Htot|].
  split; [destruct (0 <? total); [reflexivity | now rewrite append_nil_r]|].
  split; [exact Hoth|]. split; [exact Hch|]. split; [exact Hidx|].
  unfold update_workflow. destruct (vector_store dp'); [reflexivity | congruence].
Qed.

Lemma upload_accounts_for_what_it_records_witness :
  fst (fst (fst (fst (@upload_pdf sample_world (fun _ => true) "s1"
                        (mkRAGPipeline None) (mkDocumentProcessor None) empty_db
                        sample_upload)))) =
    "✅ report.pdf: Processed report.pdf with 1 chunks" ++ nl ++
    "❌ No file provided" ++ nl ++
    "❌ notes.txt: Only PDF files are supported" ++ nl ++ nl ++
    "📊 Total chunks processed: 1".
Proof.
  destruct (@upload_accounts_for_what_it_records sample_world (fun _ => true) "s1"
              (mkRAGPipeline None) (mkDocumentProcessor None) empty_db
              sample_upload ltac:(discriminate))
    as (_ & _ & Hmsg & _).
  rewrite Hmsg. reflexivity.
Defined.
